(** * oncopeu: the static file-library generator [build.js]

    A shallow embedding of [build.js] and of the browser script it emits.

    Conventions of the model.
    - JavaScript strings are [string]s of the Standard Library: a file name
      is the sequence of bytes (UTF-8) the directory listing reports.  The
      characters the program itself looks for (dot, separator, the five
      characters of [escapeHtml]) are ASCII, so that searching for them in
      the bytes is searching for them in the text.
    - [String.prototype.toLowerCase] and [String.prototype.trim] follow
      Unicode and are functions of the platform, the two fields of
      [Platform]; the model is stated for any such pair.  On texts of ASCII
      characters they are [Text.asciiLowerCase] and [Text.asciiTrim]
      ([asciiPlatform]), with which the worked examples, the witnesses and
      the counterexamples are evaluated; these apply the two functions to
      texts of ASCII characters only.
    - [String.prototype.localeCompare] is a function of the platform too,
      a parameter of the script's functions.  It compares as equal texts
      that are canonically equivalent, so that names that differ as
      strings can tie.
    - JavaScript numbers are rationals ([Q]) where the program only copies,
      subtracts and compares them ([mtimeMs]), and integers ([Z]) where the
      platform reports whole numbers ([size], array lengths).
    - [await]ed calls that may reject are values of [result]; the
      filesystem the run sees is a [World].
    - [Array.prototype.sort] is the stable sort of ECMAScript 2019, given as
      a stable insertion sort driven by the sign of the comparator. *)

From Stdlib Require Import String Ascii List ZArith QArith Lqa Lia Bool.
From Stdlib Require Import Qround Permutation Sorted DecimalString.
From Stdlib Require OrderedTypeEx.
Import ListNotations.

Open Scope string_scope.
Open Scope list_scope.
Open Scope Z_scope.

(** ** Text primitives of the platform *)

Module Text.

Definition code (c : ascii) : N := N_of_ascii c.

Definition is_upper (c : ascii) : bool :=
  ((65 <=? code c) && (code c <=? 90))%N.

Definition lower_char (c : ascii) : ascii :=
  if is_upper c then ascii_of_N (code c + 32) else c.

(** [String.prototype.toLowerCase] on a text of ASCII characters: each
    of the letters A to Z is replaced, independently of its
    neighbours. *)
Fixpoint asciiLowerCase (s : string) : string :=
  match s with
  | EmptyString => EmptyString
  | String c t => String (lower_char c) (asciiLowerCase t)
  end.

(** The string holds none of the letters A to Z. *)
Fixpoint noAsciiCapital (s : string) : bool :=
  match s with
  | EmptyString => true
  | String c t => negb (is_upper c) && noAsciiCapital t
  end.

(** Every character of the string is an ASCII character. *)
Fixpoint isAscii (s : string) : bool :=
  match s with
  | EmptyString => true
  | String c t => (code c <? 128)%N && isAscii t
  end.

Definition is_empty (s : string) : bool :=
  match s with EmptyString => true | _ => false end.

(** [s.startsWith(p)] *)
Fixpoint startsWith (s p : string) : bool :=
  match p with
  | EmptyString => true
  | String a p' =>
      match s with
      | EmptyString => false
      | String b s' => Ascii.eqb a b && startsWith s' p'
      end
  end.

(** [s.includes(t)]: [t] occurs in [s] as a run of consecutive
    characters. *)
Fixpoint includes (s t : string) : bool :=
  startsWith s t ||
  match s with
  | EmptyString => false
  | String _ s' => includes s' t
  end.

(** The ASCII characters that are white space for [trim] (tab, line
    feed, vertical tab, form feed, carriage return, space). *)
Definition is_space (c : ascii) : bool :=
  ((9 <=? code c) && (code c <=? 13) || (code c =? 32))%N.

Fixpoint trimStart (s : string) : string :=
  match s with
  | EmptyString => EmptyString
  | String c t => if is_space c then trimStart t else s
  end.

Fixpoint trimEnd (s : string) : string :=
  match s with
  | EmptyString => EmptyString
  | String c t =>
      match trimEnd t with
      | EmptyString => if is_space c then EmptyString else String c EmptyString
      | t' => String c t'
      end
  end.

(** [String.prototype.trim] on a text of ASCII characters. *)
Definition asciiTrim (s : string) : string := trimEnd (trimStart s).

(** [s.replace(p, r)] with a one-character string pattern: only the
    first occurrence is replaced. *)
Fixpoint replaceFirst (s : string) (p : ascii) (r : string) : string :=
  match s with
  | EmptyString => EmptyString
  | String c t =>
      if Ascii.eqb c p then (r ++ t)%string else String c (replaceFirst t p r)
  end.

(** [s.slice(from, to)] for [0 <= from <= to]. *)
Definition slice (s : string) (from to : Z) : string :=
  substring (Z.to_nat from) (Z.to_nat (to - from)) s.

(** Decimal rendering of an array length inside a template literal. *)
Definition ofLength (n : nat) : string :=
  NilEmpty.string_of_uint (Nat.to_uint n).

Definition dquote : string := String (ascii_of_N 34) EmptyString.

End Text.

(** ** The text functions of the platform

    [s.toLowerCase()] and [s.trim()].  Both follow Unicode: the case
    mapping covers the letters of every script and depends on the
    neighbours of a character (the final sigma), and the white space of
    [trim] includes characters outside ASCII.  The program is modelled
    for any two such functions. *)
Class Platform := {
  toLowerCase : string -> string;
  trim : string -> string
}.

(** The two functions on texts of ASCII characters. *)
#[global] Instance asciiPlatform : Platform :=
  {| toLowerCase := Text.asciiLowerCase; trim := Text.asciiTrim |}.

(** Facts of the platform's [toLowerCase] that some properties rest on:
    its result holds none of the letters A to Z; and on a text of ASCII
    characters it is the ASCII mapping. *)
Definition lowersCapitals (P : Platform) : Prop :=
  forall s, Text.noAsciiCapital (toLowerCase s) = true.

Definition asciiAgrees (P : Platform) : Prop :=
  forall s, Text.isAscii s = true -> toLowerCase s = Text.asciiLowerCase s.

(** The empty text stays empty under both functions. *)
Definition emptyStaysEmpty (P : Platform) : Prop :=
  toLowerCase EmptyString = EmptyString /\ trim EmptyString = EmptyString.

(** ** [path.extname] (POSIX flavour of Node's [path] module)

    The scan runs from the last character to the first, as the library
    does, with the same five state variables. *)

Module Path.

Record scan := {
  startDot : Z;
  startPart : Z;
  endPos : Z;
  matchedSlash : bool;
  preDotState : Z
}.

Definition scan0 : scan :=
  {| startDot := -1; startPart := 0; endPos := -1;
     matchedSlash := true; preDotState := 0 |}.

Definition is_slash (c : ascii) : bool := (Text.code c =? 47)%N.
Definition is_dot (c : ascii) : bool := (Text.code c =? 46)%N.

(** One iteration of the loop at index [i]; the flag is [break]. *)
Definition step (c : ascii) (i : Z) (st : scan) : scan * bool :=
  if is_slash c then
    if negb (matchedSlash st) then
      ({| startDot := startDot st; startPart := i + 1; endPos := endPos st;
          matchedSlash := matchedSlash st; preDotState := preDotState st |},
       true)
    else (st, false)
  else
    let st1 :=
      if endPos st =? -1 then
        {| startDot := startDot st; startPart := startPart st;
           endPos := i + 1; matchedSlash := false;
           preDotState := preDotState st |}
      else st in
    let st2 :=
      if is_dot c then
        if startDot st1 =? -1 then
          {| startDot := i; startPart := startPart st1;
             endPos := endPos st1; matchedSlash := matchedSlash st1;
             preDotState := preDotState st1 |}
        else if negb (preDotState st1 =? 1) then
          {| startDot := startDot st1; startPart := startPart st1;
             endPos := endPos st1; matchedSlash := matchedSlash st1;
             preDotState := 1 |}
        else st1
      else if negb (startDot st1 =? -1) then
        {| startDot := startDot st1; startPart := startPart st1;
           endPos := endPos st1; matchedSlash := matchedSlash st1;
           preDotState := -1 |}
      else st1 in
    (st2, false).

(** The loop [for (i = path.length - 1; i >= 0; --i)], over the
    characters in reverse order. *)
Fixpoint loop (rev_chars : list ascii) (i : Z) (st : scan) : scan :=
  match rev_chars with
  | [] => st
  | c :: rest =>
      let '(st', stop) := step c i st in
      if stop then st' else loop rest (i - 1) st'
  end.

Definition extname (p : string) : string :=
  let chars := list_ascii_of_string p in
  let st := loop (rev chars) (Z.of_nat (List.length chars) - 1) scan0 in
  if (startDot st =? -1) || (endPos st =? -1) || (preDotState st =? 0)
     || ((preDotState st =? 1) && (startDot st =? endPos st - 1)
         && (startDot st =? startPart st + 1))
  then EmptyString
  else Text.slice p (startDot st) (endPos st).

End Path.

(** ** The generator: tables and helpers of [build.js] *)

(** Values a property read can produce. *)
Inductive jsval :=
| JUndefined
| JString (s : string)
| JFunction (fname : string)
| JObject (oname : string).

Definition truthy (v : jsval) : bool :=
  match v with
  | JUndefined => false
  | JString s => negb (Text.is_empty s)
  | JFunction _ | JObject _ => true
  end.

(** [a || b] *)
Definition js_or (a b : jsval) : jsval := if truthy a then a else b.

(** [v === s] for a string [s] *)
Definition strictEqStr (v : jsval) (s : string) : bool :=
  match v with
  | JString t => String.eqb t s
  | _ => false
  end.

Fixpoint assoc {V : Type} (k : string) (l : list (string * V)) : option V :=
  match l with
  | [] => None
  | (k', v) :: t => if String.eqb k k' then Some v else assoc k t
  end.

(** The set [IGNORE]. *)
Definition IGNORE : list string :=
  [ "build.js"; "serve.js"; "index.html"; ".DS_Store"; "Thumbs.db" ].

Definition IGNORE_has (n : string) : bool := existsb (String.eqb n) IGNORE.

(** The own properties of the object literal [PREVIEW]. *)
Definition PREVIEW : list (string * string) :=
  [ ("pdf", "pdf");
    ("png", "image"); ("jpg", "image"); ("jpeg", "image");
    ("webp", "image"); ("gif", "image"); ("svg", "image");
    ("mp4", "video"); ("webm", "video");
    ("mp3", "audio"); ("wav", "audio"); ("ogg", "audio");
    ("html", "html"); ("htm", "html");
    ("txt", "text"); ("md", "text") ].

(** What an object literal inherits: the properties of
    [Object.prototype]. *)
Definition Object_prototype : list (string * jsval) :=
  [ ("constructor", JFunction "Object");
    ("__proto__", JObject "Object.prototype");
    ("hasOwnProperty", JFunction "hasOwnProperty");
    ("isPrototypeOf", JFunction "isPrototypeOf");
    ("propertyIsEnumerable", JFunction "propertyIsEnumerable");
    ("toLocaleString", JFunction "toLocaleString");
    ("toString", JFunction "toString");
    ("valueOf", JFunction "valueOf");
    ("__defineGetter__", JFunction "__defineGetter__");
    ("__defineSetter__", JFunction "__defineSetter__");
    ("__lookupGetter__", JFunction "__lookupGetter__");
    ("__lookupSetter__", JFunction "__lookupSetter__") ].

(** [obj[key]] on an object literal with string-valued own properties:
    own properties first, then the prototype. *)
Definition getProperty (own : list (string * string)) (key : string) : jsval :=
  match assoc key own with
  | Some s => JString s
  | None =>
      match assoc key Object_prototype with
      | Some v => v
      | None => JUndefined
      end
  end.

(** [PREVIEW[ext] || "link"], the classification used by [main]. *)
Definition extensionToPreviewKind (ext : string) : jsval :=
  js_or (getProperty PREVIEW ext) (JString "link").

(** The seven preview kinds. *)
Definition previewKinds : list string :=
  [ "pdf"; "image"; "video"; "audio"; "html"; "text"; "link" ].

Definition isPreviewKind (v : jsval) : bool :=
  existsb (strictEqStr v) previewKinds.

Definition asExt {P : Platform} (name : string) : string :=
  let ext :=
    Text.replaceFirst (toLowerCase (Path.extname name)) "."%char
      EmptyString in
  if Text.is_empty ext then EmptyString else ext.

Definition escapeChar (ch : ascii) : string :=
  if Ascii.eqb ch "&"%char then "&amp;"
  else if Ascii.eqb ch "<"%char then "&lt;"
  else if Ascii.eqb ch ">"%char then "&gt;"
  else if Ascii.eqb ch (ascii_of_N 34) then "&quot;"
  else if Ascii.eqb ch "'"%char then "&#39;"
  else String ch EmptyString.

Fixpoint escapeHtml (s : string) : string :=
  match s with
  | EmptyString => EmptyString
  | String ch t => (escapeChar ch ++ escapeHtml t)%string
  end.

(** ** The generator: [main] *)

(** The outcome of an awaited call. *)
Inductive result (A : Type) :=
| Ok (a : A)
| Rejected (err : string).
Arguments Ok {A} a.
Arguments Rejected {A} err.

Definition bind {A B : Type} (r : result A) (k : A -> result B) : result B :=
  match r with
  | Ok a => k a
  | Rejected err => Rejected err
  end.

Notation "x <- r ;; k" := (bind r (fun x => k))
  (at level 61, r at next level, right associativity).

(** A [Dirent] of [readdir(dir, { withFileTypes: true })]. *)
Record Dirent := {
  d_name : string;
  isFile : bool
}.

(** The two fields of [fs.Stats] the program reads. *)
Record Stats := {
  st_size : Z;
  st_mtimeMs : Q
}.

(** The object pushed onto [files]. *)
Record FileRecord := {
  name : string;
  ext : string;
  size : Z;
  mtimeMs : Q;
  preview : jsval
}.

(** The filesystem as one run observes it. *)
Record World := {
  cwd : string;
  readdir : string -> result (list Dirent);
  stat : string -> result Stats;
  writeFile : string -> result unit
}.

(** [path.join(dir, name)] for the working directory and an entry name
    (no separator, no dot segment in [name]). *)
Definition path_join (dir entry : string) : string :=
  if String.eqb dir "/" then (dir ++ entry)%string
  else (dir ++ "/" ++ entry)%string.

(** The three [continue] guards of the loop. *)
Definition eligible (e : Dirent) : bool :=
  isFile e && negb (IGNORE_has (d_name e))
  && negb (Text.startsWith (d_name e) ".").

Definition mkRecord {P : Platform} (e : Dirent) (st : Stats) : FileRecord :=
  let ext := asExt (d_name e) in
  {| name := d_name e;
     ext := ext;
     size := st_size st;
     mtimeMs := st_mtimeMs st;
     preview := extensionToPreviewKind ext |}.

(** [for (const e of entries) { ... files.push(...) }] *)
Fixpoint scanLoop {P : Platform} (w : World) (entries : list Dirent)
  (files : list FileRecord) : result (list FileRecord) :=
  match entries with
  | [] => Ok files
  | e :: rest =>
      if negb (isFile e) then scanLoop w rest files
      else if IGNORE_has (d_name e) then scanLoop w rest files
      else if Text.startsWith (d_name e) "." then scanLoop w rest files
      else
        let full := path_join (cwd w) (d_name e) in
        st <- stat w full ;;
        scanLoop w rest (files ++ [mkRecord e st])
  end.

(** [Array.prototype.sort(compare)] *)
Module JsArray.
Section Sort.
Context {A : Type}.
Variable compare : A -> A -> Q.

(** [compare x y > 0]: [x] is to come after [y]. *)
Definition after (x y : A) : bool := negb (Qle_bool (compare x y) 0).

(** [compare x y <= 0]: [x] may stay before [y]. *)
Definition notAfter (x y : A) : Prop := (compare x y <= 0)%Q.

Fixpoint insert (x : A) (l : list A) : list A :=
  match l with
  | [] => [x]
  | y :: t => if after x y then y :: insert x t else x :: y :: t
  end.

Fixpoint sort (l : list A) : list A :=
  match l with
  | [] => []
  | x :: t => insert x (sort t)
  end.
End Sort.
End JsArray.

(** [(a, b) => b.mtimeMs - a.mtimeMs] *)
Definition byMtimeDesc (a b : FileRecord) : Q := (mtimeMs b - mtimeMs a)%Q.

(** What [JSON.stringify] keeps of a record: a function-valued property
    is left out, so reading it back gives [undefined]; strings and
    numbers are kept, and an object stays an object. *)
Definition viaJSON (f : FileRecord) : FileRecord :=
  {| name := name f; ext := ext f; size := size f; mtimeMs := mtimeMs f;
     preview := match preview f with
                | JFunction _ => JUndefined
                | v => v
                end |}.

(** The emitted document.  Style sheet, markup and script are fixed text
    around one varying part, the JSON text of the array that the script
    assigns to [FILES]; the document is represented by that array.  The
    development covers what the generator writes and what the functions
    of the script compute from the array.  How a browser reads the
    document is not covered: the JSON text is pasted into the script
    element as it is, and nothing below says that the element is run (a
    name that holds the opening of a comment and of a script element
    keeps the parser inside the element to the end of the document). *)
Record Page := { FILES : list FileRecord }.

Definition JSON_stringify (files : list FileRecord) : list FileRecord :=
  map viaJSON files.

Definition html (dataJson : list FileRecord) : Page := {| FILES := dataJson |}.

Inductive effect :=
| WriteFile (path : string) (content : Page)
| ConsoleLog (line : string)
| ConsoleError (err : string).

Definition successLine (n : nat) : string :=
  ("✅ index.html gerado com " ++ Text.ofLength n ++ " arquivo(s).")%string.

(** [async function main()]: the effects performed, and whether the
    promise is fulfilled or rejected. *)
Definition main {P : Platform} (w : World) : list effect * result unit :=
  let dir := cwd w in
  match
    (entries <- readdir w dir ;;
     files <- scanLoop w entries [] ;;
     let files := JsArray.sort byMtimeDesc files in
     let dataJson := JSON_stringify files in
     let out := path_join dir "index.html" in
     _ <- writeFile w out ;;
     Ok (out, html dataJson, List.length files))
  with
  | Ok (out, page, n) => ([WriteFile out page; ConsoleLog (successLine n)], Ok tt)
  | Rejected err => ([], Rejected err)
  end.

Record Outcome := {
  effects : list effect;
  exitCode : Z
}.

(** [main().catch((err) => { console.error(err); process.exit(1); })] *)
Definition run {P : Platform} (w : World) : Outcome :=
  match main w with
  | (tr, Ok _) => {| effects := tr; exitCode := 0 |}
  | (tr, Rejected err) =>
      {| effects := tr ++ [ConsoleError err]; exitCode := 1 |}
  end.

(** Observations on an outcome. *)
Fixpoint written (tr : list effect) : option Page :=
  match tr with
  | [] => None
  | WriteFile _ page :: _ => Some page
  | _ :: t => written t
  end.

Fixpoint stdout (tr : list effect) : list string :=
  match tr with
  | [] => []
  | ConsoleLog l :: t => l :: stdout t
  | _ :: t => stdout t
  end.

Fixpoint stderr (tr : list effect) : list string :=
  match tr with
  | [] => []
  | ConsoleError l :: t => l :: stderr t
  | _ :: t => stderr t
  end.

(** ** The Client Browser: the script of the emitted page *)

(** [String(v)], also the property key a value is turned into. *)
Definition toString (v : jsval) : string :=
  match v with
  | JUndefined => "undefined"
  | JString s => s
  | JFunction f => ("function " ++ f ++ "() { [native code] }")%string
  | JObject _ => "[object Object]"
  end.

(** The values of the three controls [q], [kind] and [sort]. *)
Record Controls := {
  q_value : string;
  kind_value : string;
  sort_value : string
}.

(** The value of the first option of the [kind] select,
    "Todos os tipos". *)
Definition kind_all : string := EmptyString.

(** What [render] builds for one record. *)
Record Card := {
  h3_textContent : string;
  meta_innerHTML : string;
  btnView_href : string;
  btnView_textContent : string
}.

Record View := {
  grid : list Card;
  empty_hidden : bool
}.

(** What [showInViewer] puts in the preview pane: an element appended to
    the emptied pane, markup assigned to its [innerHTML], or, for a text
    file, the emptied pane with a request under way and the two handlers
    of the promise, the one that receives the text and the one that runs
    when the request or the reading of its body fails. *)
Inductive viewerContent :=
| Iframe (src title : string) (sandbox : option string)
| Img (src alt : string)
| Video (src : string)
| Audio (src : string)
| Pre (textContent : string)
| FetchText (url : string) (onText : string -> viewerContent)
    (onRejected : viewerContent)
| InnerHTML (markup : string).

(** How the promise of [fetch(...).then(r => r.text())] ends: with the
    body of the response, whatever its status, read as text; or
    rejected, when the request or the reading fails. *)
Inductive fetched :=
| Body (txt : string)
| Failure.

Section Client.

Context {P : Platform}.

(** Platform and formatting functions the claims do not look into:
    [String.prototype.localeCompare(_, 'pt-BR')], and the page's
    [humanSize] and [fmtDate] (floating point and locale formatting). *)
Variable localeCompare : string -> string -> Z.
Variable humanSize : Z -> string.
Variable fmtDate : Q -> string.

Definition icons : list (string * string) :=
  [ ("pdf", "📄"); ("image", "🖼️"); ("video", "🎞️"); ("audio", "🎧");
    ("html", "🕸️"); ("text", "📝"); ("link", "🔗") ].

Definition iconFor (kind : jsval) (ext : string) : jsval :=
  let m := getProperty icons (toString kind) in
  if truthy m then m
  else if negb (Text.is_empty ext) then JString "📦"
  else JString "📦".

(** The predicate of the first [filter]. *)
Definition textFilter (term : string) (f : FileRecord) : bool :=
  Text.includes (toLowerCase (name f)) term
  || Text.includes (toLowerCase (ext f)) term.

(** The predicate of the second [filter]. *)
Definition kindFilter (k : string) (f : FileRecord) : bool :=
  if String.eqb k "image" then strictEqStr (preview f) "image"
  else strictEqStr (preview f) k.

(** The comparator handed to [items.sort]. *)
Definition comparator (sorter : string) (a b : FileRecord) : Q :=
  if String.eqb sorter "mtime-asc" then (mtimeMs a - mtimeMs b)%Q
  else if String.eqb sorter "mtime-desc" then (mtimeMs b - mtimeMs a)%Q
  else if String.eqb sorter "name-asc" then
    inject_Z (localeCompare (name a) (name b))
  else if String.eqb sorter "name-desc" then
    inject_Z (localeCompare (name b) (name a))
  else if String.eqb sorter "size-asc" then inject_Z (size a - size b)
  else if String.eqb sorter "size-desc" then inject_Z (size b - size a)
  else 0%Q.

Definition metaMarkup (f : FileRecord) : string :=
  ("<span class=" ++ Text.dquote ++ "chip" ++ Text.dquote ++ ">"
   ++ (if negb (Text.is_empty (ext f)) then ext f else "sem extensão")
   ++ "</span> • " ++ humanSize (size f) ++ " • " ++ fmtDate (mtimeMs f))%string.

Definition card (f : FileRecord) : Card :=
  {| h3_textContent :=
       (toString (iconFor (preview f) (ext f)) ++ " " ++ name f)%string;
     meta_innerHTML := metaMarkup f;
     btnView_href := name f;
     btnView_textContent :=
       if strictEqStr (preview f) "link" then "Abrir" else "Visualizar" |}.

Definition render (list : list FileRecord) : View :=
  match list with
  | [] => {| grid := []; empty_hidden := false |}
  | _ => {| grid := map card list; empty_hidden := true |}
  end.

(** The term, the kind and the sort key [applyFilters] reads. *)
Definition termOf (ui : Controls) : string :=
  trim
    (toLowerCase
       (if negb (Text.is_empty (q_value ui)) then q_value ui
        else EmptyString)).

(** The list [applyFilters] hands to [render]. *)
Definition visible (ui : Controls) (files : list FileRecord)
  : list FileRecord :=
  let term := termOf ui in
  let k := kind_value ui in
  let sorter := sort_value ui in
  let items := files in
  let items :=
    if negb (Text.is_empty term) then filter (textFilter term) items
    else items in
  let items :=
    if negb (Text.is_empty k) then filter (kindFilter k) items
    else items in
  JsArray.sort (comparator sorter) items.

Definition applyFilters (ui : Controls) (files : list FileRecord) : View :=
  render (visible ui files).

Definition fallbackMarkup (f : FileRecord) : string :=
  ("<div class=" ++ Text.dquote ++ "empty" ++ Text.dquote
   ++ ">Tipo não suportado para prévia. <a class=" ++ Text.dquote ++ "btn"
   ++ Text.dquote ++ " href=" ++ Text.dquote ++ name f ++ Text.dquote
   ++ " target=" ++ Text.dquote ++ "_blank" ++ Text.dquote
   ++ " rel=" ++ Text.dquote ++ "noopener" ++ Text.dquote
   ++ ">Abrir em nova aba</a></div>")%string.

Definition failureMarkup : string :=
  ("<div class=" ++ Text.dquote ++ "empty" ++ Text.dquote
   ++ ">Não foi possível pré-visualizar este arquivo.</div>")%string.

Definition showInViewer (f : FileRecord) : viewerContent :=
  let kind := preview f in
  if strictEqStr kind "pdf" then
    Iframe (name f ++ "#toolbar=1") "Visualizador de PDF" None
  else if strictEqStr kind "image" then Img (name f) (name f)
  else if strictEqStr kind "video" then Video (name f)
  else if strictEqStr kind "audio" then Audio (name f)
  else if strictEqStr kind "html" then
    Iframe (name f) "Página HTML"
      (Some "allow-scripts allow-forms allow-popups allow-same-origin")
  else if strictEqStr kind "text" then
    FetchText (name f) Pre (InnerHTML failureMarkup)
  else InnerHTML (fallbackMarkup f).

(** The preview pane once the request, if there is one, has ended, no
    other file having been opened in between. *)
Definition settled (v : viewerContent) (r : fetched) : viewerContent :=
  match v with
  | FetchText _ onText onRejected =>
      match r with
      | Body txt => onText txt
      | Failure => onRejected
      end
  | _ => v
  end.

(** Whether a record passes the two filters for given controls. *)
Definition passesText (ui : Controls) (f : FileRecord) : bool :=
  if negb (Text.is_empty (termOf ui)) then textFilter (termOf ui) f
  else true.

Definition passesKind (ui : Controls) (f : FileRecord) : bool :=
  if negb (Text.is_empty (kind_value ui)) then kindFilter (kind_value ui) f
  else true.

End Client.

(** ** Notions the specification uses *)

(** [s] contains [q] as a case-insensitive substring. *)
Definition containsNoCase {P : Platform} (s q : string) : bool :=
  Text.includes (toLowerCase s) (toLowerCase q).

(** The plain equality test on the preview kind. *)
Definition previewEquals (k : string) (f : FileRecord) : bool :=
  strictEqStr (preview f) k.

(** A number that is a whole number. *)
Definition isInteger (x : Q) : bool := Qeq_bool x (inject_Z (Qfloor x)).

(** How many records of a data set carry a given name. *)
Definition countNamed (n : string) (files : list FileRecord) : nat :=
  List.length (filter (fun f => String.eqb (name f) n) files).

(** The data set is in descending order of modification time. *)
Definition mtimeDescending (files : list FileRecord) : Prop :=
  forall i j a b, (i < j)%nat ->
    nth_error files i = Some a -> nth_error files j = Some b ->
    (mtimeMs b <= mtimeMs a)%Q.

(** No two records of the list have equal sizes, modification times or
    names; for names also: no two compare equal in a given collation. *)
Definition distinctSizes (files : list FileRecord) : Prop :=
  ForallOrdPairs (fun a b => size a <> size b) files.

Definition distinctMtimes (files : list FileRecord) : Prop :=
  ForallOrdPairs (fun a b => ~ (mtimeMs a == mtimeMs b)%Q) files.

Definition distinctNames (files : list FileRecord) : Prop :=
  ForallOrdPairs (fun a b => name a <> name b) files.

Definition distinctNamesFor (collate : string -> string -> Z)
  (files : list FileRecord) : Prop :=
  ForallOrdPairs (fun a b => collate (name a) (name b) <> 0) files.

(** A comparison function that orders: opposite arguments give opposite
    signs, and "not after" is transitive. *)
Definition consistentCollation (collate : string -> string -> Z) : Prop :=
  (forall s t, collate s t < 0 <-> 0 < collate t s)
  /\ (forall s t u, collate s t <= 0 -> collate t u <= 0 -> collate s u <= 0).

(** A sample collation: the order of the character codes. *)
Definition codeOrder (s t : string) : Z :=
  match String.compare s t with
  | Lt => -1
  | Eq => 0
  | Gt => 1
  end.

(** The letter e with an acute accent, written as one code point (U+00E9)
    and as the letter e followed by the combining accent (U+0301): two
    spellings that are canonically equivalent. *)
Definition eAcuteComposed : string :=
  String (ascii_of_N 195) (String (ascii_of_N 169) EmptyString).

Definition eAcuteDecomposed : string :=
  String "e"%char (String (ascii_of_N 204) (String (ascii_of_N 129)
                                              EmptyString)).

(** The text with every composed e-acute spelled decomposed. *)
Fixpoint decomposeE (s : string) : string :=
  match s with
  | EmptyString => EmptyString
  | String c t =>
      match t with
      | String d t' =>
          if ((Text.code c =? 195) && (Text.code d =? 169))%N
          then (eAcuteDecomposed ++ decomposeE t')%string
          else String c (decomposeE t)
      | EmptyString => String c EmptyString
      end
  end.

(** A sample collation that does not tell the two spellings apart, as
    [localeCompare] does not tell canonically equivalent texts apart: the
    order of the character codes after decomposition. *)
Definition canonicalOrder (s t : string) : Z :=
  codeOrder (decomposeE s) (decomposeE t).

(** Two files whose names differ only in the spelling of the accent. *)
Definition cafeComposed : FileRecord :=
  {| name := ("caf" ++ eAcuteComposed ++ ".txt")%string; ext := "txt";
     size := 10; mtimeMs := inject_Z 1700000000000;
     preview := JString "text" |}.

Definition cafeDecomposed : FileRecord :=
  {| name := ("caf" ++ eAcuteDecomposed ++ ".txt")%string; ext := "txt";
     size := 20; mtimeMs := inject_Z 1700000005000;
     preview := JString "text" |}.

(** The record [f] is the one [main] builds for the entry [e]. *)
Definition builtFrom {P : Platform} (w : World) (e : Dirent) (f : FileRecord)
  : Prop :=
  exists st, stat w (path_join (cwd w) (d_name e)) = Ok st
             /\ f = mkRecord e st.

(** The invariants the data model states for a record. *)
Definition recordInvariant (f : FileRecord) : Prop :=
  name f <> EmptyString
  /\ Text.noAsciiCapital (ext f) = true
  /\ isPreviewKind (preview f) = true
  /\ isInteger (mtimeMs f) = true.

(** A failed [stat] costs the run one record and nothing else. *)
Definition dropsFailedEntries {P : Platform} (w : World) : Prop :=
  forall entries e err,
    readdir w (cwd w) = Ok entries ->
    writeFile w (path_join (cwd w) "index.html") = Ok tt ->
    In e entries -> eligible e = true ->
    stat w (path_join (cwd w) (d_name e)) = Rejected err ->
    exists page, written (effects (run w)) = Some page
                 /\ countNamed (d_name e) (FILES page) = 0%nat.

(** The text filter as a plain case-insensitive substring test on the
    query. *)
Definition textFilterOnQuery {P : Platform} (ui : Controls) (f : FileRecord)
  : Prop :=
  q_value ui = EmptyString
  \/ containsNoCase (name f) (q_value ui) = true
  \/ containsNoCase (ext f) (q_value ui) = true.

(** ** Sample directories *)

(** A directory given by its listing and what [stat] answers for each
    entry; every write succeeds. *)
Definition worldOf (dir : string) (listing : list (Dirent * result Stats))
  : World :=
  {| cwd := dir;
     readdir := fun d =>
       if String.eqb d dir then Ok (map fst listing)
       else Rejected "ENOENT: no such file or directory, scandir";
     stat := fun p =>
       match
         find (fun x => String.eqb (path_join dir (d_name (fst x))) p) listing
       with
       | Some (_, r) => r
       | None => Rejected "ENOENT: no such file or directory, stat"
       end;
     writeFile := fun _ => Ok tt |}.

Definition file (n : string) : Dirent := {| d_name := n; isFile := true |}.
Definition directory (n : string) : Dirent := {| d_name := n; isFile := false |}.

Definition stats (bytes : Z) (ms : Q) : result Stats :=
  Ok {| st_size := bytes; st_mtimeMs := ms |}.

(** The directory of the specification's scenario, with a sub-directory
    added; one modification time has a sub-millisecond part. *)
Definition scenarioWorld : World :=
  worldOf "/srv/library"
    [ (file "report.pdf", stats 2048 (inject_Z 1700000000000));
      (file "photo.PNG", stats 500000 (13600000040001 # 8));
      (file ".hidden", stats 12 (inject_Z 1690000000000));
      (directory "docs", stats 4096 (inject_Z 1695000000000));
      (file "index.html", stats 9000 (inject_Z 1699000000000)) ].

(** A file vanishes between the listing and its [stat]. *)
Definition vanishedWorld : World :=
  worldOf "/srv/library"
    [ (file "kept.txt", stats 10 (inject_Z 1700000000000));
      (file "gone.txt", Rejected "ENOENT: no such file or directory, stat") ].

(** The working directory cannot be listed. *)
Definition unlistableWorld : World :=
  {| cwd := "/srv/locked";
     readdir := fun _ => Rejected "EACCES: permission denied, scandir";
     stat := fun _ => Rejected "EACCES: permission denied, stat";
     writeFile := fun _ => Ok tt |}.

(** File names that carry markup. *)
Definition quotedName : string :=
  (Text.dquote ++ "><img src=x onerror=alert(1)>")%string.

Definition markupWorld : World :=
  worldOf "/srv/library"
    [ (file "x.<script>", stats 1 (inject_Z 1700000000000));
      (file quotedName, stats 2 (inject_Z 1690000000000)) ].

Definition scriptRecord : FileRecord :=
  {| name := "x.<script>"; ext := "<script>"; size := 1;
     mtimeMs := inject_Z 1700000000000; preview := JString "link" |}.

Definition quotedRecord : FileRecord :=
  {| name := quotedName; ext := EmptyString; size := 2;
     mtimeMs := inject_Z 1690000000000; preview := JString "link" |}.

(** An extension that is a property name of [Object.prototype]. *)
Definition constructorWorld : World :=
  worldOf "/srv/library"
    [ (file "notes.constructor", stats 1 (inject_Z 1700000000000)) ].

(** Two files share a modification time. *)
Definition tiedWorld : World :=
  worldOf "/srv/library"
    [ (file "b.txt", stats 3 (inject_Z 1700000000000));
      (file "z.md", stats 4 (inject_Z 1700000009000));
      (file "a.txt", stats 5 (inject_Z 1700000000000)) ].

(** The controls as the page loads. *)
Definition initialControls : Controls :=
  {| q_value := EmptyString; kind_value := kind_all;
     sort_value := "mtime-desc" |}.

(** ** Further notions: characters of a string, the entities read back *)

(** The string holds the character. *)
Fixpoint hasChar (c : ascii) (s : string) : bool :=
  match s with
  | EmptyString => false
  | String d t => Ascii.eqb d c || hasChar c t
  end.

(** The five characters the pattern of [escapeHtml] matches. *)
Definition htmlSpecial (ch : ascii) : bool :=
  Ascii.eqb ch "&"%char || Ascii.eqb ch "<"%char || Ascii.eqb ch ">"%char
  || Ascii.eqb ch (ascii_of_N 34) || Ascii.eqb ch "'"%char.

(** A string without any of the five characters. *)
Fixpoint htmlPlain (s : string) : bool :=
  match s with
  | EmptyString => true
  | String ch t => negb (htmlSpecial ch) && htmlPlain t
  end.

Definition is3 (a b c : ascii) (s : string) : bool :=
  String.eqb (String a (String b (String c EmptyString))) s.

Definition is4 (a b c d : ascii) (s : string) : bool :=
  String.eqb (String a (String b (String c (String d EmptyString)))) s.

Definition is5 (a b c d e : ascii) (s : string) : bool :=
  String.eqb
    (String a (String b (String c (String d (String e EmptyString))))) s.

(** Reading the five entities back; any other text is kept.  It serves to
    show that [escapeHtml] loses nothing. *)
Fixpoint unescapeHtml (s : string) : string :=
  match s with
  | EmptyString => EmptyString
  | String c r =>
      let keep := String c (unescapeHtml r) in
      if negb (Ascii.eqb c "&"%char) then keep
      else
        match r with
        | String c1 (String c2 (String c3 r3)) =>
            if is3 c1 c2 c3 "lt;" then String "<"%char (unescapeHtml r3)
            else if is3 c1 c2 c3 "gt;" then String ">"%char (unescapeHtml r3)
            else
              match r3 with
              | String c4 r4 =>
                  if is4 c1 c2 c3 c4 "amp;" then
                    String "&"%char (unescapeHtml r4)
                  else if is4 c1 c2 c3 c4 "#39;" then
                    String "'"%char (unescapeHtml r4)
                  else
                    match r4 with
                    | String c5 r5 =>
                        if is5 c1 c2 c3 c4 c5 "quot;" then
                          String (ascii_of_N 34) (unescapeHtml r5)
                        else keep
                    | EmptyString => keep
                    end
              | EmptyString => keep
              end
        | _ => keep
        end
  end.

(** ** Further notions: the page's remaining handlers and [humanSize] *)

(** The handler of the button [clear]: the values it assigns to the
    three controls before it calls [applyFilters]. *)
Definition clearClick (ui : Controls) : Controls :=
  {| q_value := EmptyString; kind_value := EmptyString;
     sort_value := "mtime-desc" |}.

(** The six values of the [sort] select. *)
Definition sortKeys : list string :=
  [ "mtime-desc"; "mtime-asc"; "name-asc"; "name-desc"; "size-desc";
    "size-asc" ].

(** A record passes both filters. *)
Definition passes {P : Platform} (ui : Controls) (f : FileRecord) : bool :=
  passesText ui f && passesKind ui f.

(** The kinds [showInViewer] has an element for. *)
Definition viewerKinds : list string :=
  [ "pdf"; "image"; "video"; "audio"; "html"; "text" ].

(** The preview pane was filled through [innerHTML]. *)
Definition isMarkup (v : viewerContent) : bool :=
  match v with
  | InnerHTML _ => true
  | _ => false
  end.

(** The address an element of the preview pane loads. *)
Definition srcOf (v : viewerContent) : option string :=
  match v with
  | Iframe src _ _ | Img src _ | Video src | Audio src => Some src
  | _ => None
  end.

(** The records with a given modification time. *)
Definition modifiedAt (m : Q) (f : FileRecord) : bool :=
  Qeq_bool (mtimeMs f) m.

(** ** [humanSize] of the page

    The size is a whole number of bytes.  Dividing by 1024 is exact in
    binary floating point, so the loop is the one on rationals; the
    product [n * 10] is exact as long as [10 * bytes] is below [2 ^ 53],
    and the rounded number, a whole number of tenths, prints with at most
    one decimal. *)

Definition units : list string := [ "B"; "KB"; "MB"; "GB"; "TB" ].

(** [while (n >= 1024 && i < units.length-1) { n /= 1024; i++; }]; the
    loop runs at most [units.length - 1] times, which [rounds] counts. *)
Fixpoint humanSizeLoop (rounds : nat) (n : Q) (i : nat) : Q * nat :=
  match rounds with
  | O => (n, i)
  | S r =>
      if Qle_bool 1024 n && (i <? List.length units - 1)%nat
      then humanSizeLoop r (n / 1024) (S i)
      else (n, i)
  end.

(** [Math.round]: the nearest whole number, a half goes up. *)
Definition Math_round (x : Q) : Z := Qfloor (x + (1 # 2)).

Definition digits (z : Z) : string :=
  NilEmpty.string_of_uint (N.to_uint (Z.to_N z)).

(** The text of the number [r / 10] for a whole [r] that is not
    negative. *)
Definition tenthsText (r : Z) : string :=
  if r mod 10 =? 0 then digits (r / 10)
  else (digits (r / 10) ++ "." ++ digits (r mod 10))%string.

Definition humanSize (bytes : Z) : string :=
  let '(n, i) :=
    humanSizeLoop (List.length units - 1) (inject_Z bytes) 0 in
  (tenthsText (Math_round (n * 10)) ++ " " ++ nth i units "undefined")%string.

(** * Properties *)

(** ** Worked examples *)

Example extname_samples :
  map Path.extname
    [ "index.html"; "a.b.c"; "a."; "README"; ".bashrc"; ".."; "a..b" ]
  = [ ".html"; ".c"; "."; EmptyString; EmptyString; EmptyString; ".b" ].
Proof. reflexivity. Qed.

Example asExt_samples :
  map asExt [ "photo.PNG"; "report.pdf"; "README"; "a.tar.gz"; "a." ]
  = [ "png"; "pdf"; EmptyString; "gz"; EmptyString ].
Proof. reflexivity. Qed.

Example escapeHtml_sample :
  escapeHtml "a<b & 'c'" = "a&lt;b &amp; &#39;c&#39;".
Proof. reflexivity. Qed.

Example classify_samples :
  map extensionToPreviewKind [ "pdf"; "png"; "md"; "zip"; EmptyString ]
  = [ JString "pdf"; JString "image"; JString "text"; JString "link";
      JString "link" ].
Proof. reflexivity. Qed.

Example trim_samples :
  map Text.asciiTrim [ "  a b  "; " "; "ab" ] = [ "a b"; EmptyString; "ab" ].
Proof. reflexivity. Qed.

(** The scenario of the specification: two records, most recent first. *)
Example scenario_run :
  run scenarioWorld
  = {| effects :=
         [ WriteFile "/srv/library/index.html"
             {| FILES :=
                  [ {| name := "photo.PNG"; ext := "png"; size := 500000;
                       mtimeMs := 13600000040001 # 8;
                       preview := JString "image" |};
                    {| name := "report.pdf"; ext := "pdf"; size := 2048;
                       mtimeMs := inject_Z 1700000000000;
                       preview := JString "pdf" |} ] |};
           ConsoleLog "✅ index.html gerado com 2 arquivo(s)." ];
       exitCode := 0 |}.
Proof. reflexivity. Qed.

Example vanished_run :
  run vanishedWorld
  = {| effects := [ConsoleError "ENOENT: no such file or directory, stat"];
       exitCode := 1 |}.
Proof. reflexivity. Qed.

(** ** Facts on [Array.prototype.sort] *)

Section SortFacts.
Context {A : Type}.
Variable compare : A -> A -> Q.

Local Abbreviation notAfter := (JsArray.notAfter compare).

Lemma after_true (x y : A) :
  JsArray.after compare x y = true <-> (0 < compare x y)%Q.
Proof.
  unfold JsArray.after. rewrite negb_true_iff.
  split; intro H.
  - apply Qnot_le_lt. intro Hle. apply Qle_bool_iff in Hle. congruence.
  - destruct (Qle_bool (compare x y) 0) eqn:E; [|reflexivity].
    apply Qle_bool_iff in E. lra.
Qed.

Lemma after_false (x y : A) :
  JsArray.after compare x y = false <-> (compare x y <= 0)%Q.
Proof.
  unfold JsArray.after. rewrite negb_false_iff. apply Qle_bool_iff.
Qed.

Lemma insert_perm (x : A) (l : list A) :
  Permutation (JsArray.insert compare x l) (x :: l).
Proof.
  induction l as [|y t IH]; simpl.
  - apply Permutation_refl.
  - destruct (JsArray.after compare x y).
    + eapply perm_trans; [apply perm_skip, IH | apply perm_swap].
    + apply Permutation_refl.
Qed.

Lemma sort_perm (l : list A) : Permutation (JsArray.sort compare l) l.
Proof.
  induction l as [|x t IH]; simpl.
  - constructor.
  - eapply perm_trans; [apply insert_perm | apply perm_skip, IH].
Qed.

Lemma sort_length (l : list A) :
  List.length (JsArray.sort compare l) = List.length l.
Proof. apply Permutation_length, sort_perm. Qed.

Lemma sort_In (l : list A) (x : A) :
  In x (JsArray.sort compare l) <-> In x l.
Proof.
  split; apply Permutation_in; [|apply Permutation_sym]; apply sort_perm.
Qed.

Hypothesis compare_trans :
  forall x y z, notAfter x y -> notAfter y z -> notAfter x z.
Hypothesis compare_total :
  forall x y, (0 < compare x y)%Q -> notAfter y x.

Lemma insert_sorted (x : A) (l : list A) :
  StronglySorted notAfter l ->
  StronglySorted notAfter (JsArray.insert compare x l).
Proof.
  induction 1 as [|y t Hs IH Hy]; simpl.
  - repeat constructor.
  - destruct (JsArray.after compare x y) eqn:E.
    + apply after_true in E. constructor; [exact IH|].
      eapply Permutation_Forall;
        [apply Permutation_sym, insert_perm|].
      constructor; [apply compare_total, E | exact Hy].
    + apply after_false in E. constructor.
      * constructor; assumption.
      * constructor; [exact E|].
        eapply Forall_impl; [|exact Hy].
        intros z Hz. eapply compare_trans; eassumption.
Qed.

Lemma sort_sorted (l : list A) :
  StronglySorted notAfter (JsArray.sort compare l).
Proof.
  induction l as [|x t IH]; simpl.
  - constructor.
  - apply insert_sorted, IH.
Qed.
End SortFacts.

Section ListFacts.
Context {A : Type}.
Variable R : A -> A -> Prop.

Lemma StronglySorted_nth (l : list A) :
  StronglySorted R l ->
  forall i j a b, (i < j)%nat ->
    nth_error l i = Some a -> nth_error l j = Some b -> R a b.
Proof.
  induction 1 as [|x t Hs IH Hx]; intros i j a b Hij Ha Hb.
  - destruct i; discriminate.
  - destruct j as [|j]; [lia|]. simpl in Hb.
    destruct i as [|i]; simpl in Ha.
    + injection Ha as <-. rewrite Forall_forall in Hx.
      apply Hx. eapply nth_error_In, Hb.
    + apply (IH i j); [lia | assumption | assumption].
Qed.

Lemma StronglySorted_snoc (l : list A) (x : A) :
  StronglySorted R l -> Forall (fun y => R y x) l ->
  StronglySorted R (l ++ [x]).
Proof.
  induction 1 as [|y t Hs IH Hy]; intro Hall; simpl.
  - repeat constructor.
  - inversion Hall as [|? ? Hyx Ht]; subst.
    constructor; [apply IH, Ht|].
    apply Forall_app. split; [exact Hy | repeat constructor; exact Hyx].
Qed.

Lemma StronglySorted_rev (l : list A) :
  StronglySorted (fun a b => R b a) l -> StronglySorted R (rev l).
Proof.
  induction 1 as [|x t Hs IH Hx]; simpl.
  - constructor.
  - apply StronglySorted_snoc; [exact IH|].
    apply Forall_rev. exact Hx.
Qed.

Hypothesis R_asym : forall x y, R x y -> R y x -> False.

Lemma sorted_perm_unique (l1 : list A) :
  forall l2, Permutation l1 l2 ->
    StronglySorted R l1 -> StronglySorted R l2 -> l1 = l2.
Proof.
  induction l1 as [|a t1 IH]; intros l2 Hp H1 H2.
  - apply Permutation_nil in Hp. congruence.
  - destruct l2 as [|b t2].
    + apply Permutation_sym, Permutation_nil in Hp. discriminate.
    + inversion H1 as [|? ? Hs1 Ha]; subst.
      inversion H2 as [|? ? Hs2 Hb]; subst.
      rewrite Forall_forall in Ha, Hb.
      assert (a = b) as ->.
      { assert (Hin1 : In a (b :: t2))
          by (eapply Permutation_in; [exact Hp | left; reflexivity]).
        assert (Hin2 : In b (a :: t1))
          by (eapply Permutation_in;
              [apply Permutation_sym, Hp | left; reflexivity]).
        destruct Hin1 as [->|Hin1]; [reflexivity|].
        destruct Hin2 as [->|Hin2]; [reflexivity|].
        exfalso. eapply R_asym; [apply Ha, Hin2 | apply Hb, Hin1]. }
      f_equal. apply IH; [|assumption|assumption].
      eapply Permutation_cons_inv, Hp.
Qed.
End ListFacts.

Section PairFacts.
Context {A : Type}.
Variable D : A -> A -> Prop.
Hypothesis D_sym : forall x y, D x y -> D y x.

Lemma FOP_perm (l l' : list A) :
  Permutation l l' -> ForallOrdPairs D l -> ForallOrdPairs D l'.
Proof.
  induction 1 as [|x l l' Hp IH|x y l|l l' l'' Hp1 IH1 Hp2 IH2]; intro H.
  - exact H.
  - inversion H as [|? ? Hx Hl]; subst.
    constructor; [eapply Permutation_Forall; eassumption | apply IH, Hl].
  - inversion H as [|? ? Hy Hl]; subst.
    inversion Hl as [|? ? Hx Hl']; subst.
    inversion Hy as [|? ? Hyx Hyl]; subst.
    constructor; [constructor; [apply D_sym, Hyx | exact Hx]|].
    constructor; assumption.
  - apply IH2, IH1, H.
Qed.

Lemma FOP_filter (p : A -> bool) (l : list A) :
  ForallOrdPairs D l -> ForallOrdPairs D (filter p l).
Proof.
  induction 1 as [|x l Hx Hl IH]; simpl.
  - constructor.
  - destruct (p x); [|exact IH].
    constructor; [|exact IH].
    rewrite Forall_forall in *. intros y Hy.
    apply filter_In in Hy. apply Hx, Hy.
Qed.
End PairFacts.

Section Reversal.
Context {A : Type}.
Variable asc : A -> A -> Q.
Hypothesis asc_trans :
  forall x y z, (asc x y <= 0 -> asc y z <= 0 -> asc x z <= 0)%Q.
Hypothesis asc_anti : forall x y, (asc x y < 0 <-> 0 < asc y x)%Q.

Local Abbreviation desc := (fun a b => asc b a).
Local Abbreviation differ := (fun a b => ~ (asc a b == 0)%Q).
Local Abbreviation before := (fun a b => (asc a b < 0)%Q).

Lemma differ_sym (x y : A) : differ x y -> differ y x.
Proof.
  intros H E. apply H.
  destruct (Q_dec (asc x y) 0) as [[Hlt|Hgt]|Heq]; [| |exact Heq].
  - apply asc_anti in Hlt. lra.
  - apply asc_anti in Hgt. lra.
Qed.

Lemma sorted_strict (l : list A) :
  StronglySorted (JsArray.notAfter asc) l -> ForallOrdPairs differ l ->
  StronglySorted before l.
Proof.
  induction 1 as [|x t Hs IH Hx]; intro Hd.
  - constructor.
  - inversion Hd as [|? ? Hdx Hdt]; subst.
    constructor; [apply IH, Hdt|].
    rewrite Forall_forall in *. intros y Hy.
    specialize (Hx y Hy). specialize (Hdx y Hy).
    unfold JsArray.notAfter in Hx. lra.
Qed.

Lemma sort_asc_sorted (l : list A) :
  StronglySorted (JsArray.notAfter asc) (JsArray.sort asc l).
Proof.
  apply sort_sorted.
  - intros x y z. apply asc_trans.
  - intros x y H. apply asc_anti in H. unfold JsArray.notAfter. lra.
Qed.

Lemma sort_desc_sorted (l : list A) :
  StronglySorted (JsArray.notAfter desc) (JsArray.sort desc l).
Proof.
  apply sort_sorted.
  - intros x y z Hxy Hyz. unfold JsArray.notAfter in *.
    eapply asc_trans; eassumption.
  - intros x y H. apply asc_anti in H. unfold JsArray.notAfter. lra.
Qed.

(** Sorting with the opposite comparator and reversing is sorting with
    the comparator, when no two elements compare equal. *)
Lemma rev_sort_desc (l : list A) :
  ForallOrdPairs differ l ->
  rev (JsArray.sort desc l) = JsArray.sort asc l.
Proof.
  intro Hd.
  apply (sorted_perm_unique before).
  - intros x y Hxy Hyx. apply asc_anti in Hxy. lra.
  - eapply perm_trans; [apply Permutation_sym, Permutation_rev|].
    eapply perm_trans; [apply sort_perm|].
    apply Permutation_sym, sort_perm.
  - apply sorted_strict.
    + apply StronglySorted_rev. apply sort_desc_sorted.
    + eapply (FOP_perm differ differ_sym); [|exact Hd].
      eapply perm_trans; [apply Permutation_sym, sort_perm|].
      apply Permutation_rev.
  - apply sorted_strict.
    + apply sort_asc_sorted.
    + eapply (FOP_perm differ differ_sym); [|exact Hd].
      apply Permutation_sym, sort_perm.
Qed.
End Reversal.

(** ** Facts on the text primitives *)

Lemma lower_char_not_upper (c : ascii) :
  Text.is_upper (Text.lower_char c) = false.
Proof. destruct c as [[] [] [] [] [] [] [] []]; reflexivity. Qed.

Lemma asciiLowerCase_noCapital (s : string) :
  Text.noAsciiCapital (Text.asciiLowerCase s) = true.
Proof.
  induction s as [|c t IH]; simpl.
  - reflexivity.
  - rewrite lower_char_not_upper, IH. reflexivity.
Qed.

Lemma replaceFirst_noCapital (s : string) (p : ascii) :
  Text.noAsciiCapital s = true ->
  Text.noAsciiCapital (Text.replaceFirst s p EmptyString) = true.
Proof.
  induction s as [|c t IH]; simpl; intro H.
  - reflexivity.
  - apply andb_true_iff in H. destruct H as [Hc Ht].
    destruct (Ascii.eqb c p); simpl.
    + exact Ht.
    + rewrite Hc. apply IH, Ht.
Qed.

(** The extension holds none of the letters A to Z, as the result of
    [toLowerCase] holds none. *)
Lemma asExt_noCapital {P : Platform} (n : string) :
  lowersCapitals P -> Text.noAsciiCapital (asExt n) = true.
Proof.
  intro HP. unfold asExt.
  set (x := Text.replaceFirst _ _ _).
  assert (Hx : Text.noAsciiCapital x = true)
    by (apply replaceFirst_noCapital, HP).
  destruct (Text.is_empty x); [reflexivity | exact Hx].
Qed.

(** The ASCII functions have the three facts of the platform's. *)
Lemma ascii_lowersCapitals : lowersCapitals asciiPlatform.
Proof. intro s. apply asciiLowerCase_noCapital. Qed.

Lemma ascii_asciiAgrees : asciiAgrees asciiPlatform.
Proof. intros s _. reflexivity. Qed.

Lemma ascii_emptyStaysEmpty : emptyStaysEmpty asciiPlatform.
Proof. split; reflexivity. Qed.

Lemma is_empty_true (s : string) :
  Text.is_empty s = true <-> s = EmptyString.
Proof. destruct s; simpl; split; congruence. Qed.

Lemma is_empty_false (s : string) :
  Text.is_empty s = false <-> s <> EmptyString.
Proof. destruct s; simpl; split; congruence. Qed.

(** ** Facts on the classification table *)

Lemma PREVIEW_values (key kind : string) :
  assoc key PREVIEW = Some kind -> In kind previewKinds.
Proof.
  unfold PREVIEW. simpl.
  repeat (destruct (String.eqb key _);
          [intro H; injection H as <-; simpl; tauto|]).
  discriminate.
Qed.

Lemma previewKinds_are_kinds (kind : string) :
  In kind previewKinds ->
  isPreviewKind (JString kind) = true /\ truthy (JString kind) = true.
Proof.
  simpl. intros [<-|[<-|[<-|[<-|[<-|[<-|[<-|[]]]]]]]]; split; reflexivity.
Qed.

(** Away from the names [Object.prototype] defines, the classification
    lands in the seven kinds, and outside the table on [link]. *)
Lemma classify_regular (x : string) :
  assoc x Object_prototype = None ->
  isPreviewKind (extensionToPreviewKind x) = true
  /\ (assoc x PREVIEW = None -> extensionToPreviewKind x = JString "link").
Proof.
  intro Hproto. unfold extensionToPreviewKind, getProperty, js_or.
  rewrite Hproto.
  destruct (assoc x PREVIEW) as [kind|] eqn:E.
  - apply PREVIEW_values, previewKinds_are_kinds in E.
    destruct E as [Hk Ht]. rewrite Ht. split; [exact Hk | discriminate].
  - split; reflexivity.
Qed.

(** ** Facts on the scan loop *)

Section Scan.
Context {P : Platform}.
Variable w : World.

Lemma scanLoop_skip (e : Dirent) (rest : list Dirent) (acc : list FileRecord) :
  eligible e = false -> scanLoop w (e :: rest) acc = scanLoop w rest acc.
Proof.
  unfold eligible. simpl.
  destruct (isFile e); simpl; [|reflexivity].
  destruct (IGNORE_has (d_name e)); simpl; [reflexivity|].
  destruct (Text.startsWith (d_name e) "."); simpl; [reflexivity|].
  discriminate.
Qed.

Lemma scanLoop_take (e : Dirent) (rest : list Dirent) (acc : list FileRecord) :
  eligible e = true ->
  scanLoop w (e :: rest) acc =
  (st <- stat w (path_join (cwd w) (d_name e)) ;;
   scanLoop w rest (acc ++ [mkRecord e st])).
Proof.
  unfold eligible. simpl.
  destruct (isFile e); simpl; [|discriminate].
  destruct (IGNORE_has (d_name e)); simpl; [discriminate|].
  destruct (Text.startsWith (d_name e) "."); simpl; [discriminate|].
  reflexivity.
Qed.

Lemma scanLoop_spec (entries : list Dirent) :
  forall acc files, scanLoop w entries acc = Ok files ->
    exists recs, files = acc ++ recs
                 /\ Forall2 (builtFrom w) (filter eligible entries) recs.
Proof.
  induction entries as [|e rest IH]; intros acc files H.
  - simpl in H. injection H as <-. exists []. rewrite app_nil_r.
    split; [reflexivity | constructor].
  - simpl filter. destruct (eligible e) eqn:E.
    + rewrite (scanLoop_take _ _ _ E) in H.
      destruct (stat w (path_join (cwd w) (d_name e))) as [st|err] eqn:Hst;
        simpl in H; [|discriminate].
      apply IH in H. destruct H as (recs & -> & Hrecs).
      exists (mkRecord e st :: recs). rewrite <- app_assoc. split.
      * reflexivity.
      * constructor; [exists st; split; [exact Hst | reflexivity] | exact Hrecs].
    + rewrite (scanLoop_skip _ _ _ E) in H. apply IH, H.
Qed.

Lemma scanLoop_rejects (entries : list Dirent) :
  forall acc e err, In e entries -> eligible e = true ->
    stat w (path_join (cwd w) (d_name e)) = Rejected err ->
    exists err', scanLoop w entries acc = Rejected err'.
Proof.
  induction entries as [|e0 rest IH]; intros acc e err Hin He Hst.
  - destruct Hin.
  - destruct (eligible e0) eqn:E0.
    + rewrite (scanLoop_take _ _ _ E0).
      destruct (stat w (path_join (cwd w) (d_name e0))) as [st0|err0] eqn:H0;
        simpl.
      * destruct Hin as [->|Hin]; [congruence|].
        eapply IH; eassumption.
      * eauto.
    + rewrite (scanLoop_skip _ _ _ E0).
      destruct Hin as [->|Hin]; [congruence|].
      eapply IH; eassumption.
Qed.

Lemma scanLoop_total (entries : list Dirent) :
  (forall e, In e entries -> eligible e = true ->
     exists st, stat w (path_join (cwd w) (d_name e)) = Ok st) ->
  forall acc, exists files, scanLoop w entries acc = Ok files.
Proof.
  induction entries as [|e rest IH]; intros Hall acc.
  - simpl. eauto.
  - destruct (eligible e) eqn:E.
    + rewrite (scanLoop_take _ _ _ E).
      destruct (Hall e (or_introl eq_refl) E) as [st ->]. simpl.
      apply IH. intros e' Hin. apply Hall. right. exact Hin.
    + rewrite (scanLoop_skip _ _ _ E).
      apply IH. intros e' Hin. apply Hall. right. exact Hin.
Qed.

(** A run that writes a page went through every stage. *)
Lemma run_written_inv (page : Page) :
  written (effects (run w)) = Some page ->
  exists entries files,
    readdir w (cwd w) = Ok entries
    /\ scanLoop w entries [] = Ok files
    /\ writeFile w (path_join (cwd w) "index.html") = Ok tt
    /\ page = html (JSON_stringify (JsArray.sort byMtimeDesc files))
    /\ run w =
       {| effects :=
            [ WriteFile (path_join (cwd w) "index.html") page;
              ConsoleLog (successLine (List.length
                                         (JsArray.sort byMtimeDesc files))) ];
          exitCode := 0 |}.
Proof.
  unfold run, main.
  destruct (readdir w (cwd w)) as [entries|err] eqn:Hr; simpl; [|discriminate].
  destruct (scanLoop w entries []) as [files|err] eqn:Hs; simpl;
    [|discriminate].
  destruct (writeFile w (path_join (cwd w) "index.html")) as [[]|err] eqn:Hw;
    simpl; [|discriminate].
  intro H. injection H as <-.
  exists entries, files. repeat split; assumption.
Qed.

Lemma run_exit_zero_inv :
  exitCode (run w) = 0 ->
  exists page, written (effects (run w)) = Some page.
Proof.
  unfold run, main.
  destruct (readdir w (cwd w)) as [entries|err]; simpl; [|discriminate].
  destruct (scanLoop w entries []) as [files|err]; simpl; [|discriminate].
  destruct (writeFile w (path_join (cwd w) "index.html")) as [[]|err]; simpl;
    [|discriminate].
  eauto.
Qed.

(** A run whose listing, [stat] calls and write all succeed exits with
    code 0 after writing the page. *)
Lemma run_succeeds (entries : list Dirent) :
  readdir w (cwd w) = Ok entries ->
  (forall e, In e entries -> eligible e = true ->
     exists st, stat w (path_join (cwd w) (d_name e)) = Ok st) ->
  writeFile w (path_join (cwd w) "index.html") = Ok tt ->
  exitCode (run w) = 0
  /\ exists page, written (effects (run w)) = Some page.
Proof.
  intros Hr Hst Hw.
  destruct (scanLoop_total entries Hst []) as [files Hs].
  unfold run, main. rewrite Hr. simpl. rewrite Hs. simpl. rewrite Hw. simpl.
  eauto.
Qed.

End Scan.

(** ** Counting records by name *)

Lemma countNamed_count_occ (n : string) (files : list FileRecord) :
  countNamed n files = count_occ string_dec (map name files) n.
Proof.
  unfold countNamed. induction files as [|f t IH]; simpl.
  - reflexivity.
  - destruct (string_dec (name f) n) as [E|E].
    + apply String.eqb_eq in E. rewrite E. simpl. f_equal. exact IH.
    + apply String.eqb_neq in E. rewrite E. exact IH.
Qed.

Lemma map_name_viaJSON (files : list FileRecord) :
  map name (JSON_stringify files) = map name files.
Proof.
  unfold JSON_stringify. rewrite map_map. apply map_ext. reflexivity.
Qed.

Lemma built_names {P : Platform}
  (w : World) (es : list Dirent) (recs : list FileRecord) :
  Forall2 (builtFrom w) es recs -> map name recs = map d_name es.
Proof.
  induction 1 as [|e f es recs (st & _ & ->) _ IH]; simpl.
  - reflexivity.
  - f_equal. exact IH.
Qed.

(** A name the listing does not hold is not among the eligible names. *)
Lemma absent_name_count (entries : list Dirent) (n : string) :
  ~ In n (map d_name entries) ->
  count_occ string_dec (map d_name (filter eligible entries)) n = 0%nat.
Proof.
  intro Hout. apply count_occ_not_In. intro Hin. apply Hout.
  apply in_map_iff in Hin. destruct Hin as (e & <- & He).
  apply filter_In in He. apply in_map. tauto.
Qed.

(** In the names of the eligible entries, the name of an entry of the
    listing occurs once if the entry is eligible and not at all if not. *)
Lemma eligible_name_count (entries : list Dirent) (e : Dirent) :
  NoDup (map d_name entries) -> In e entries ->
  count_occ string_dec (map d_name (filter eligible entries)) (d_name e)
  = if eligible e then 1%nat else 0%nat.
Proof.
  induction entries as [|a rest IH]; simpl; intros Hnd Hin; [tauto|].
  apply NoDup_cons_iff in Hnd. destruct Hnd as [Hfresh Hrest].
  destruct Hin as [->|Hin].
  - pose proof (absent_name_count rest (d_name e) Hfresh) as H0.
    destruct (eligible e); simpl; [|exact H0].
    destruct (string_dec (d_name e) (d_name e)); [|tauto].
    rewrite H0. reflexivity.
  - assert (Hneq : d_name a <> d_name e).
    { intro E. apply Hfresh. rewrite E. apply in_map, Hin. }
    destruct (eligible a); simpl; [|apply IH; assumption].
    destruct (string_dec (d_name a) (d_name e)); [tauto|].
    apply IH; assumption.
Qed.

(** The names in a written page are those of the eligible entries, up to
    the order. *)
Lemma page_names {P : Platform}
  (w : World) (entries : list Dirent) (page : Page) :
  readdir w (cwd w) = Ok entries ->
  written (effects (run w)) = Some page ->
  Permutation (map name (FILES page)) (map d_name (filter eligible entries)).
Proof.
  intros Hr Hw.
  apply run_written_inv in Hw.
  destruct Hw as (entries' & files & Hr' & Hs & _ & -> & _).
  assert (entries' = entries) as -> by congruence.
  apply scanLoop_spec in Hs. destruct Hs as (recs & -> & Hrecs).
  simpl. rewrite map_name_viaJSON.
  rewrite <- (built_names _ _ _ Hrecs).
  apply Permutation_map, sort_perm.
Qed.

Lemma eligible_iff (e : Dirent) :
  eligible e = true <->
  isFile e = true /\ ~ In (d_name e) IGNORE
  /\ Text.startsWith (d_name e) "." = false.
Proof.
  unfold eligible, IGNORE_has.
  rewrite !andb_true_iff, !negb_true_iff.
  assert (Hx : existsb (String.eqb (d_name e)) IGNORE = false
               <-> ~ In (d_name e) IGNORE).
  { rewrite <- not_true_iff_false, existsb_exists. split.
    - intros H Hin. apply H. exists (d_name e). split; [exact Hin|].
      apply String.eqb_refl.
    - intros H (x & Hin & E). apply String.eqb_eq in E. subst x. tauto. }
  rewrite Hx. tauto.
Qed.

(** ** The claims *)

(** C1 (as stated, refuted): in [vanishedWorld] the listing succeeds, the
    write would succeed and the [stat] of the eligible entry [gone.txt]
    fails; the run writes no page at all, so the entry is not merely
    dropped. *)
Lemma stat_failure_not_tolerated : ~ dropsFailedEntries vanishedWorld.
Proof.
  intro H.
  destruct (H [file "kept.txt"; file "gone.txt"] (file "gone.txt")
              "ENOENT: no such file or directory, stat")
    as (page & Hw & _).
  - reflexivity.
  - reflexivity.
  - simpl. tauto.
  - reflexivity.
  - reflexivity.
  - vm_compute in Hw. discriminate.
Qed.

(** C1 (amended): when the [stat] of an entry that passed the three
    listing filters fails, the whole run aborts: the error is printed,
    the exit code is 1, nothing is printed on the standard output and no
    page is written. *)
Theorem stat_failure_aborts_run {P : Platform}
  (w : World) (entries : list Dirent)
  (e : Dirent) (err : string) :
  readdir w (cwd w) = Ok entries ->
  In e entries -> eligible e = true ->
  stat w (path_join (cwd w) (d_name e)) = Rejected err ->
  exitCode (run w) = 1
  /\ written (effects (run w)) = None
  /\ stdout (effects (run w)) = []
  /\ exists err', stderr (effects (run w)) = [err'].
Proof.
  intros Hr Hin He Hst.
  destruct (scanLoop_rejects w entries [] e err Hin He Hst) as [err' Hs].
  unfold run, main. rewrite Hr. simpl. rewrite Hs. simpl.
  repeat split. exists err'. reflexivity.
Qed.

Lemma stat_failure_aborts_run_witness :
  exitCode (run vanishedWorld) = 1
  /\ written (effects (run vanishedWorld)) = None
  /\ stdout (effects (run vanishedWorld)) = []
  /\ exists err', stderr (effects (run vanishedWorld)) = [err'].
Proof.
  apply (stat_failure_aborts_run vanishedWorld
           [file "kept.txt"; file "gone.txt"] (file "gone.txt")
           "ENOENT: no such file or directory, stat").
  - reflexivity.
  - simpl. tauto.
  - reflexivity.
  - reflexivity.
Defined.

(** C4: in a run that writes its page, an entry of the listing has
    exactly one record in the data set if and only if it is a regular
    file, its name is not in [IGNORE] and its name does not start with a
    dot; any other entry has none.  [IGNORE] holds the name of the output
    file, the generator's files and two junk files of operating
    systems. *)
Theorem eligible_entries_exactly_once {P : Platform}
  (w : World) (entries : list Dirent)
  (page : Page) (e : Dirent) :
  readdir w (cwd w) = Ok entries ->
  NoDup (map d_name entries) ->
  written (effects (run w)) = Some page ->
  In e entries ->
  (countNamed (d_name e) (FILES page) = 1%nat <->
   isFile e = true /\ ~ In (d_name e) IGNORE
   /\ Text.startsWith (d_name e) "." = false)
  /\ (eligible e = false -> countNamed (d_name e) (FILES page) = 0%nat)
  /\ IGNORE = [ "build.js"; "serve.js"; "index.html"; ".DS_Store";
                "Thumbs.db" ].
Proof.
  intros Hr Hnd Hw Hin.
  pose proof (page_names w entries page Hr Hw) as Hp.
  rewrite countNamed_count_occ.
  rewrite (proj1 (Permutation_count_occ string_dec _ _) Hp).
  rewrite (eligible_name_count entries e Hnd Hin).
  rewrite <- eligible_iff.
  destruct (eligible e); repeat split; auto; discriminate.
Qed.

Lemma eligible_entries_exactly_once_witness :
  (countNamed "photo.PNG"
     [ {| name := "photo.PNG"; ext := "png"; size := 500000;
          mtimeMs := 13600000040001 # 8; preview := JString "image" |};
       {| name := "report.pdf"; ext := "pdf"; size := 2048;
          mtimeMs := inject_Z 1700000000000; preview := JString "pdf" |} ]
   = 1%nat <->
   isFile (file "photo.PNG") = true /\ ~ In "photo.PNG" IGNORE
   /\ Text.startsWith "photo.PNG" "." = false)
  /\ written (effects (run scenarioWorld))
     = Some {| FILES :=
       [ {| name := "photo.PNG"; ext := "png"; size := 500000;
            mtimeMs := 13600000040001 # 8; preview := JString "image" |};
         {| name := "report.pdf"; ext := "pdf"; size := 2048;
            mtimeMs := inject_Z 1700000000000; preview := JString "pdf" |} ] |}.
Proof.
  split; [|reflexivity].
  apply (eligible_entries_exactly_once scenarioWorld
           [ file "report.pdf"; file "photo.PNG"; file ".hidden";
             directory "docs"; file "index.html" ]
           {| FILES :=
             [ {| name := "photo.PNG"; ext := "png"; size := 500000;
                  mtimeMs := 13600000040001 # 8; preview := JString "image" |};
               {| name := "report.pdf"; ext := "pdf"; size := 2048;
                  mtimeMs := inject_Z 1700000000000;
                  preview := JString "pdf" |} ] |}
           (file "photo.PNG")).
  - reflexivity.
  - repeat constructor; simpl; intuition discriminate.
  - reflexivity.
  - simpl. tauto.
Defined.

(** C5: when the listing of the working directory fails the run prints
    the error, exits with code 1 and writes nothing; when the listing,
    the [stat] calls and the write succeed the run exits with code 0; and
    a run that exits with code 0 has written the page and printed one
    line, which reports the number of records of the data set. *)
Theorem listing_failure_and_success_report {P : Platform} (w : World) :
  (forall err, readdir w (cwd w) = Rejected err ->
     exitCode (run w) = 1
     /\ effects (run w) = [ConsoleError err]
     /\ written (effects (run w)) = None)
  /\ (forall entries, readdir w (cwd w) = Ok entries ->
      (forall e, In e entries -> eligible e = true ->
         exists st, stat w (path_join (cwd w) (d_name e)) = Ok st) ->
      writeFile w (path_join (cwd w) "index.html") = Ok tt ->
      exitCode (run w) = 0)
  /\ (exitCode (run w) = 0 ->
      exists page,
        written (effects (run w)) = Some page
        /\ stdout (effects (run w)) =
           [ ("✅ index.html gerado com "
              ++ Text.ofLength (List.length (FILES page))
              ++ " arquivo(s).")%string ]
        /\ stderr (effects (run w)) = []).
Proof.
  split; [|split].
  - intros err Hr. unfold run, main. rewrite Hr. simpl. auto.
  - intros entries Hr Hst Hw. eapply run_succeeds; eassumption.
  - intro H0. destruct (run_exit_zero_inv w H0) as [page Hw].
    exists page. split; [exact Hw|].
    apply run_written_inv in Hw.
    destruct Hw as (entries & files & _ & _ & _ & -> & ->).
    simpl. unfold JSON_stringify, successLine. rewrite length_map.
    split; reflexivity.
Qed.

Lemma listing_failure_and_success_report_witness :
  (exitCode (run unlistableWorld) = 1
   /\ effects (run unlistableWorld)
      = [ConsoleError "EACCES: permission denied, scandir"]
   /\ written (effects (run unlistableWorld)) = None)
  /\ exitCode (run scenarioWorld) = 0
  /\ exists page,
       written (effects (run scenarioWorld)) = Some page
       /\ stdout (effects (run scenarioWorld)) =
          [ ("✅ index.html gerado com "
             ++ Text.ofLength (List.length (FILES page))
             ++ " arquivo(s).")%string ]
       /\ stderr (effects (run scenarioWorld)) = [].
Proof.
  destruct (listing_failure_and_success_report unlistableWorld)
    as (Hfail & _ & _).
  destruct (listing_failure_and_success_report scenarioWorld)
    as (_ & Hzero & Hline).
  split; [|split].
  - apply Hfail. reflexivity.
  - apply (Hzero [ file "report.pdf"; file "photo.PNG"; file ".hidden";
                   directory "docs"; file "index.html" ]).
    + reflexivity.
    + intros e [<-|[<-|[<-|[<-|[<-|[]]]]]]; simpl; try discriminate;
        intros _; eexists; reflexivity.
    + reflexivity.
  - apply Hline. reflexivity.
Defined.

Example scenario_success_line :
  stdout (effects (run scenarioWorld))
  = [ "✅ index.html gerado com 2 arquivo(s)." ].
Proof. reflexivity. Qed.

(** ** Records of a written page *)

Lemma Forall2_In_r {A B : Type} (R : A -> B -> Prop) (l : list A)
  (l' : list B) :
  Forall2 R l l' -> forall y, In y l' -> exists x, In x l /\ R x y.
Proof.
  induction 1 as [|x y l l' Hxy _ IH]; intros z Hz.
  - destruct Hz.
  - destruct Hz as [<-|Hz].
    + exists x. split; [left; reflexivity | exact Hxy].
    + destruct (IH z Hz) as (x' & Hin & Hr). exists x'. split;
        [right; exact Hin | exact Hr].
Qed.

(** Every record of a written page is the JSON image of the record built
    for an eligible entry of the listing. *)
Lemma page_record_origin {P : Platform}
  (w : World) (entries : list Dirent) (page : Page)
  (f : FileRecord) :
  readdir w (cwd w) = Ok entries ->
  written (effects (run w)) = Some page ->
  In f (FILES page) ->
  exists e st,
    In e entries /\ eligible e = true
    /\ stat w (path_join (cwd w) (d_name e)) = Ok st
    /\ f = viaJSON (mkRecord e st).
Proof.
  intros Hr Hw Hin.
  apply run_written_inv in Hw.
  destruct Hw as (entries' & files & Hr' & Hs & _ & -> & _).
  assert (entries' = entries) as -> by congruence.
  apply scanLoop_spec in Hs. destruct Hs as (recs & -> & Hrecs).
  simpl in Hin. unfold JSON_stringify in Hin.
  apply in_map_iff in Hin. destruct Hin as (f0 & <- & Hin).
  apply sort_In in Hin.
  destruct (Forall2_In_r _ _ _ Hrecs f0 Hin) as (e & He & st & Hst & ->).
  apply filter_In in He. destruct He as [He Hel].
  exists e, st. repeat split; assumption.
Qed.

Lemma isPreviewKind_string (v : jsval) :
  isPreviewKind v = true -> exists s, v = JString s.
Proof. destruct v; try discriminate. eauto. Qed.

(** C6 (as stated, refuted): the record of [photo.PNG] in the page of
    [scenarioWorld] carries the modification time 1700000005000.125,
    which is not a whole number of milliseconds. *)
Lemma mtime_need_not_be_integer :
  exists page f,
    written (effects (run scenarioWorld)) = Some page
    /\ In f (FILES page)
    /\ name f = "photo.PNG"
    /\ isInteger (mtimeMs f) = false
    /\ ~ recordInvariant f.
Proof.
  eexists. eexists. split; [reflexivity|].
  split; [left; reflexivity|].
  split; [reflexivity|].
  split; [reflexivity|].
  intros (_ & _ & _ & H). vm_compute in H. discriminate.
Qed.

(** C6 (amended): every record of a written page has the name of an
    entry of the listing (non-empty, as directory entries are).  Its
    extension is what [asExt] makes of that name, the [extname] of the
    name lower-cased by [toLowerCase] and without its dot; it holds none
    of the letters A to Z, as no result of [toLowerCase] does.  Its
    preview kind is among the seven kinds when the extension is not a
    property name of [Object.prototype].  Its size and modification time
    are those [stat] reported for the file, the time copied as the number
    it is. *)
Theorem record_invariants {P : Platform} (w : World) (entries : list Dirent)
  (page : Page) (f : FileRecord) :
  readdir w (cwd w) = Ok entries ->
  Forall (fun e => d_name e <> EmptyString) entries ->
  written (effects (run w)) = Some page ->
  In f (FILES page) ->
  name f <> EmptyString
  /\ ext f
     = (let x := Text.replaceFirst (toLowerCase (Path.extname (name f)))
                   "."%char EmptyString in
        if Text.is_empty x then EmptyString else x)
  /\ (lowersCapitals P -> Text.noAsciiCapital (ext f) = true)
  /\ (assoc (ext f) Object_prototype = None ->
      isPreviewKind (preview f) = true)
  /\ exists e st,
       In e entries /\ name f = d_name e
       /\ stat w (path_join (cwd w) (name f)) = Ok st
       /\ size f = st_size st /\ mtimeMs f = st_mtimeMs st.
Proof.
  intros Hr Hne Hw Hin.
  destruct (page_record_origin w entries page f Hr Hw Hin)
    as (e & st & He & Hel & Hst & ->).
  simpl. split; [|split; [|split; [|split]]].
  - rewrite Forall_forall in Hne. apply Hne, He.
  - reflexivity.
  - apply asExt_noCapital.
  - intro Hproto.
    destruct (classify_regular _ Hproto) as [Hk _].
    destruct (isPreviewKind_string _ Hk) as [s Hs].
    rewrite Hs in *. exact Hk.
  - exists e, st. repeat split; assumption.
Qed.

Lemma record_invariants_witness :
  let f := {| name := "photo.PNG"; ext := "png"; size := 500000;
              mtimeMs := 13600000040001 # 8; preview := JString "image" |} in
  name f <> EmptyString
  /\ ext f = "png"
  /\ Text.noAsciiCapital (ext f) = true
  /\ isPreviewKind (preview f) = true
  /\ exists e st,
       In e [ file "report.pdf"; file "photo.PNG"; file ".hidden";
              directory "docs"; file "index.html" ]
       /\ name f = d_name e
       /\ stat scenarioWorld (path_join (cwd scenarioWorld) (name f)) = Ok st
       /\ size f = st_size st /\ mtimeMs f = st_mtimeMs st.
Proof.
  intro f.
  destruct (record_invariants scenarioWorld
              [ file "report.pdf"; file "photo.PNG"; file ".hidden";
                directory "docs"; file "index.html" ]
              {| FILES :=
                [ f;
                  {| name := "report.pdf"; ext := "pdf"; size := 2048;
                     mtimeMs := inject_Z 1700000000000;
                     preview := JString "pdf" |} ] |}
              f)
    as (Hname & Hext & Hlow & Hkind & Hstat).
  - reflexivity.
  - repeat constructor; discriminate.
  - reflexivity.
  - left. reflexivity.
  - split; [exact Hname|]. split; [exact Hext|].
    split; [exact (Hlow ascii_lowersCapitals)|].
    split; [exact (Hkind eq_refl) | exact Hstat].
Defined.

(** C7: the data set of a written page is in descending order of
    modification time: a record at an earlier position is at least as
    recent as one at a later position. *)
Theorem dataset_mtime_descending {P : Platform} (w : World) (page : Page) :
  written (effects (run w)) = Some page ->
  mtimeDescending (FILES page).
Proof.
  intro Hw. apply run_written_inv in Hw.
  destruct Hw as (entries & files & _ & _ & _ & -> & _).
  simpl. unfold JSON_stringify.
  intros i j a b Hij Ha Hb.
  rewrite nth_error_map in Ha, Hb.
  destruct (nth_error (JsArray.sort byMtimeDesc files) i) as [a0|] eqn:Ea;
    [|discriminate].
  destruct (nth_error (JsArray.sort byMtimeDesc files) j) as [b0|] eqn:Eb;
    [|discriminate].
  injection Ha as <-. injection Hb as <-. simpl.
  assert (Hs : StronglySorted (JsArray.notAfter byMtimeDesc)
                 (JsArray.sort byMtimeDesc files)).
  { apply sort_sorted; unfold JsArray.notAfter, byMtimeDesc; intros; lra. }
  pose proof (StronglySorted_nth _ _ Hs i j a0 b0 Hij Ea Eb) as H.
  unfold JsArray.notAfter, byMtimeDesc in H. lra.
Qed.

Lemma dataset_mtime_descending_witness :
  mtimeDescending
    [ {| name := "photo.PNG"; ext := "png"; size := 500000;
         mtimeMs := 13600000040001 # 8; preview := JString "image" |};
      {| name := "report.pdf"; ext := "pdf"; size := 2048;
         mtimeMs := inject_Z 1700000000000; preview := JString "pdf" |} ].
Proof.
  apply (dataset_mtime_descending scenarioWorld
           {| FILES :=
             [ {| name := "photo.PNG"; ext := "png"; size := 500000;
                  mtimeMs := 13600000040001 # 8; preview := JString "image" |};
               {| name := "report.pdf"; ext := "pdf"; size := 2048;
                  mtimeMs := inject_Z 1700000000000;
                  preview := JString "pdf" |} ] |}).
  reflexivity.
Defined.

(** C2 (the code departs from the claim): [escapeHtml] is defined and
    never called.  For the file [x.<script>] the extension [<script>]
    enters the [innerHTML] of the card as it is, where the escaped form
    would be [&lt;script&gt;]; for a name with a double quote, the name
    enters the [href] attribute of the preview pane's markup as it is. *)
Theorem markup_fields_not_escaped
  (localeCompare : string -> string -> Z) (humanSize : Z -> string)
  (fmtDate : Q -> string) :
  written (effects (run markupWorld))
  = Some {| FILES := [scriptRecord; quotedRecord] |}
  /\ map meta_innerHTML
       (grid (applyFilters localeCompare humanSize fmtDate initialControls
                [scriptRecord]))
     = [ ("<span class=" ++ Text.dquote ++ "chip" ++ Text.dquote
          ++ "><script></span> • " ++ humanSize 1 ++ " • "
          ++ fmtDate (inject_Z 1700000000000))%string ]
  /\ escapeHtml (ext scriptRecord) = "&lt;script&gt;"
  /\ ext scriptRecord <> escapeHtml (ext scriptRecord)
  /\ showInViewer quotedRecord
     = InnerHTML
         ("<div class=" ++ Text.dquote ++ "empty" ++ Text.dquote
          ++ ">Tipo não suportado para prévia. <a class=" ++ Text.dquote
          ++ "btn" ++ Text.dquote ++ " href=" ++ Text.dquote
          ++ Text.dquote ++ "><img src=x onerror=alert(1)>" ++ Text.dquote
          ++ " target=" ++ Text.dquote ++ "_blank" ++ Text.dquote
          ++ " rel=" ++ Text.dquote ++ "noopener" ++ Text.dquote
          ++ ">Abrir em nova aba</a></div>")%string
  /\ escapeHtml (name quotedRecord)
     = "&quot;&gt;&lt;img src=x onerror=alert(1)&gt;".
Proof.
  repeat split; try reflexivity.
  discriminate.
Qed.

(** C3 (the code departs from the claim): [PREVIEW] is an object literal,
    so [PREVIEW[ext]] also finds what [Object.prototype] defines.  The
    file [notes.constructor] has the extension [constructor], which is not
    in the table, and is classified as the function [Object] instead of
    [link]; the record reaches the page without a preview kind. *)
Theorem constructor_extension_not_link :
  asExt "notes.constructor" = "constructor"
  /\ assoc "constructor" PREVIEW = None
  /\ extensionToPreviewKind "constructor" = JFunction "Object"
  /\ isPreviewKind (extensionToPreviewKind "constructor") = false
  /\ extensionToPreviewKind "__proto__" = JObject "Object.prototype"
  /\ written (effects (run constructorWorld))
     = Some {| FILES :=
         [ {| name := "notes.constructor"; ext := "constructor"; size := 1;
              mtimeMs := inject_Z 1700000000000;
              preview := JUndefined |} ] |}.
Proof. repeat split; reflexivity. Qed.

(** ** The filters of the Client Browser *)

Lemma strictEqStr_true (v : jsval) (s : string) :
  strictEqStr v s = true <-> v = JString s.
Proof.
  destruct v; simpl; try (split; [discriminate | congruence]).
  rewrite String.eqb_eq. split; congruence.
Qed.

Lemma kindFilter_equality (k : string) (f : FileRecord) :
  kindFilter k f = strictEqStr (preview f) k.
Proof.
  unfold kindFilter. destruct (String.eqb k "image") eqn:E.
  - apply String.eqb_eq in E. subst k. reflexivity.
  - reflexivity.
Qed.

Lemma termOf_trim_lower {P : Platform} (ui : Controls) :
  termOf ui = trim (toLowerCase (q_value ui)).
Proof. unfold termOf. destruct (q_value ui); reflexivity. Qed.

(** C8 (as stated, refuted): with a query of one space every record
    passes the text filter, although the query is not empty and occurs
    neither in the name nor in the extension. *)
Lemma blank_query_passes_everything :
  let ui := {| q_value := " "; kind_value := kind_all;
               sort_value := "mtime-desc" |} in
  let f := {| name := "report.pdf"; ext := "pdf"; size := 2048;
              mtimeMs := inject_Z 1700000000000;
              preview := JString "pdf" |} in
  passesText ui f = true /\ ~ textFilterOnQuery ui f.
Proof.
  split; [reflexivity|].
  intros [H|[H|H]]; discriminate.
Qed.

(** C8 (amended): the term is the query in lower case with the white
    space at both ends removed, as the platform's [toLowerCase] and
    [trim] give it, whatever the query.  A record passes the text filter
    if and only if the term is empty or occurs in the lower-cased name or
    in the lower-cased extension; it passes the kind filter if and only
    if the selection is the empty value of "Todos os tipos" or its
    preview kind equals the selection.  The records shown are those of
    the data set that pass both. *)
Theorem filters_characterised {P : Platform} (ui : Controls) (f : FileRecord) :
  termOf ui = trim (toLowerCase (q_value ui))
  /\ (passesText ui f = true <->
      termOf ui = EmptyString
      \/ Text.includes (toLowerCase (name f)) (termOf ui) = true
      \/ Text.includes (toLowerCase (ext f)) (termOf ui) = true)
  /\ (passesKind ui f = true <->
      kind_value ui = kind_all \/ preview f = JString (kind_value ui))
  /\ (forall localeCompare files,
        In f (visible localeCompare ui files) <->
        In f files /\ passesText ui f = true /\ passesKind ui f = true).
Proof.
  split; [apply termOf_trim_lower|].
  assert (Ht : passesText ui f = true <->
      termOf ui = EmptyString
      \/ Text.includes (toLowerCase (name f)) (termOf ui) = true
      \/ Text.includes (toLowerCase (ext f)) (termOf ui) = true).
  { unfold passesText, textFilter.
    destruct (Text.is_empty (termOf ui)) eqn:E; simpl.
    - apply is_empty_true in E. tauto.
    - apply is_empty_false in E. rewrite orb_true_iff. tauto. }
  assert (Hk : passesKind ui f = true <->
      kind_value ui = kind_all \/ preview f = JString (kind_value ui)).
  { unfold passesKind, kind_all. rewrite kindFilter_equality.
    destruct (Text.is_empty (kind_value ui)) eqn:E; simpl.
    - apply is_empty_true in E. tauto.
    - apply is_empty_false in E. rewrite strictEqStr_true. tauto. }
  split; [exact Ht|]. split; [exact Hk|].
  intros localeCompare files. unfold visible.
  rewrite sort_In. unfold passesText, passesKind.
  destruct (Text.is_empty (termOf ui)), (Text.is_empty (kind_value ui));
    simpl; rewrite ?filter_In; tauto.
Qed.

(** C10: the test of the kind filter, with its special case for
    [image], is the plain equality test, for every selection and every
    record. *)
Theorem kind_filter_special_case_redundant (k : string) (f : FileRecord) :
  kindFilter k f = previewEquals k f.
Proof. unfold previewEquals. apply kindFilter_equality. Qed.

(** ** Reversing a descending sort *)

Lemma FOP_impl {A : Type} (R R' : A -> A -> Prop) (l : list A) :
  (forall a b, R a b -> R' a b) ->
  ForallOrdPairs R l -> ForallOrdPairs R' l.
Proof.
  intros Himp. induction 1 as [|x l Hx Hl IH].
  - constructor.
  - constructor; [|exact IH].
    eapply Forall_impl; [|exact Hx]. intros y. apply Himp.
Qed.

Lemma inject_Z_le0 (z : Z) : (inject_Z z <= 0)%Q <-> z <= 0.
Proof. unfold Qle. simpl. lia. Qed.

Lemma inject_Z_lt0 (z : Z) : (inject_Z z < 0)%Q <-> z < 0.
Proof. unfold Qlt. simpl. lia. Qed.

Lemma inject_Z_gt0 (z : Z) : (0 < inject_Z z)%Q <-> 0 < z.
Proof. unfold Qlt. simpl. lia. Qed.

Lemma inject_Z_eq0 (z : Z) : (inject_Z z == 0)%Q <-> z = 0.
Proof. unfold Qeq. simpl. lia. Qed.

(** The list [visible] sorts: the data set after the two filters. *)
Lemma visible_sort {P : Platform}
  (localeCompare : string -> string -> Z) (q k : string)
  (files : list FileRecord) :
  exists p,
    forall key,
      visible localeCompare
        {| q_value := q; kind_value := k; sort_value := key |} files
      = JsArray.sort (comparator localeCompare key) (filter p files).
Proof.
  unfold visible, termOf. simpl.
  set (term := trim _).
  destruct (Text.is_empty term), (Text.is_empty k); simpl.
  - exists (fun _ => true). intros key'.
    f_equal. symmetry. apply forallb_filter_id, forallb_forall. reflexivity.
  - exists (kindFilter k). reflexivity.
  - exists (textFilter term). reflexivity.
  - exists (fun f => textFilter term f && kindFilter k f). intros key'.
    f_equal. clear. induction files as [|f t IH]; simpl.
    + reflexivity.
    + destruct (textFilter term f); simpl; [|exact IH].
      destruct (kindFilter k f); simpl; [f_equal|]; exact IH.
Qed.

Section Keys.
Variable localeCompare : string -> string -> Z.

Lemma rev_sort_size (items : list FileRecord) :
  distinctSizes items ->
  rev (JsArray.sort (comparator localeCompare "size-desc") items)
  = JsArray.sort (comparator localeCompare "size-asc") items.
Proof.
  intro Hd.
  apply (rev_sort_desc (fun a b => inject_Z (size a - size b))).
  - intros x y z. rewrite !inject_Z_le0. lia.
  - intros x y. rewrite inject_Z_lt0, inject_Z_gt0. lia.
  - eapply FOP_impl; [|exact Hd]. simpl. intros a b Hab.
    rewrite inject_Z_eq0. lia.
Qed.

Lemma rev_sort_mtime (items : list FileRecord) :
  distinctMtimes items ->
  rev (JsArray.sort (comparator localeCompare "mtime-desc") items)
  = JsArray.sort (comparator localeCompare "mtime-asc") items.
Proof.
  intro Hd.
  apply (rev_sort_desc (fun a b => (mtimeMs a - mtimeMs b)%Q)).
  - intros x y z. lra.
  - intros x y. lra.
  - eapply FOP_impl; [|exact Hd]. simpl. intros a b Hab E.
    apply Hab. lra.
Qed.

Lemma rev_sort_name (items : list FileRecord) :
  consistentCollation localeCompare ->
  distinctNamesFor localeCompare items ->
  rev (JsArray.sort (comparator localeCompare "name-desc") items)
  = JsArray.sort (comparator localeCompare "name-asc") items.
Proof.
  intros [Hanti Htrans] Hd.
  apply (rev_sort_desc
           (fun a b => inject_Z (localeCompare (name a) (name b)))).
  - intros x y z. rewrite !inject_Z_le0. apply Htrans.
  - intros x y. rewrite inject_Z_lt0, inject_Z_gt0. apply Hanti.
  - eapply FOP_impl; [|exact Hd]. simpl. intros a b Hab.
    rewrite inject_Z_eq0. exact Hab.
Qed.

End Keys.

(** C9 (amended): for the list the page shows under any query and kind
    selection, the descending sort reversed is the ascending sort, for
    the sizes when no two records have the same size, for the
    modification times when no two records have the same time, and for
    the names when no two names compare equal under [localeCompare], any
    comparison that orders. *)
Theorem reversal_equivalence {P : Platform}
  (localeCompare : string -> string -> Z) (q k : string)
  (files : list FileRecord) :
  let shown key :=
    visible localeCompare
      {| q_value := q; kind_value := k; sort_value := key |} files in
  (distinctSizes files -> rev (shown "size-desc") = shown "size-asc")
  /\ (distinctMtimes files -> rev (shown "mtime-desc") = shown "mtime-asc")
  /\ (consistentCollation localeCompare ->
      distinctNamesFor localeCompare files ->
      rev (shown "name-desc") = shown "name-asc").
Proof.
  intro shown. subst shown. simpl.
  destruct (visible_sort localeCompare q k files) as [p Hp].
  rewrite !Hp.
  split; [|split].
  - intro Hd. apply rev_sort_size, FOP_filter, Hd.
  - intro Hd. apply rev_sort_mtime, FOP_filter, Hd.
  - intros Hc Hd. apply rev_sort_name; [exact Hc|]. apply FOP_filter, Hd.
Qed.

Lemma codeOrder_consistent : consistentCollation codeOrder.
Proof.
  split.
  - intros s t. unfold codeOrder.
    rewrite (String.compare_antisym s t).
    destruct (String.compare t s); simpl; lia.
  - intros s t u. unfold codeOrder.
    destruct (String.compare s t) eqn:Est;
      destruct (String.compare t u) eqn:Etu; try lia; intros _ _.
    + apply String.compare_eq_iff in Est, Etu. subst.
      match goal with
      | |- context [String.compare ?x ?x] =>
          pose proof (proj2 (OrderedTypeEx.String_as_OT.cmp_eq x x) eq_refl)
            as H
      end.
      unfold OrderedTypeEx.String_as_OT.cmp in H. rewrite H. lia.
    + apply String.compare_eq_iff in Est. subst. rewrite Etu. lia.
    + apply String.compare_eq_iff in Etu. subst. rewrite Est. lia.
    + apply OrderedTypeEx.String_as_OT.cmp_lt in Est, Etu.
      pose proof (OrderedTypeEx.String_as_OT.lt_trans _ _ _ Est Etu) as H.
      apply OrderedTypeEx.String_as_OT.cmp_lt in H.
      unfold OrderedTypeEx.String_as_OT.cmp in H. rewrite H. lia.
Qed.

Lemma canonicalOrder_consistent : consistentCollation canonicalOrder.
Proof.
  destruct codeOrder_consistent as [Hanti Htrans]. unfold canonicalOrder.
  split.
  - intros s t. apply Hanti.
  - intros s t u. apply Htrans.
Qed.

(** C9 (as stated, refuted): the two names differ, but a comparison that
    ties canonically equivalent spellings, as [localeCompare] does,
    returns 0 for them.  The stable sort then keeps the two records in
    the order of the data set under both name keys, and the descending
    sort reversed is not the ascending sort. *)
Lemma tied_names_break_reversal :
  let files := [ cafeComposed; cafeDecomposed ] in
  let shown key :=
    visible canonicalOrder
      {| q_value := EmptyString; kind_value := kind_all; sort_value := key |}
      files in
  distinctNames files
  /\ consistentCollation canonicalOrder
  /\ canonicalOrder (name cafeComposed) (name cafeDecomposed) = 0
  /\ rev (shown "name-desc") = [ cafeDecomposed; cafeComposed ]
  /\ shown "name-asc" = [ cafeComposed; cafeDecomposed ]
  /\ rev (shown "name-desc") <> shown "name-asc".
Proof.
  intros files shown.
  split; [repeat constructor; discriminate|].
  split; [exact canonicalOrder_consistent|].
  split; [reflexivity|].
  split; [reflexivity|].
  split; [reflexivity|].
  discriminate.
Qed.

Lemma reversal_equivalence_witness :
  let files :=
    [ {| name := "report.pdf"; ext := "pdf"; size := 2048;
         mtimeMs := inject_Z 1700000000000; preview := JString "pdf" |};
      {| name := "photo.PNG"; ext := "png"; size := 500000;
         mtimeMs := 13600000040001 # 8; preview := JString "image" |};
      {| name := "notes.txt"; ext := "txt"; size := 17;
         mtimeMs := inject_Z 1600000000000; preview := JString "text" |} ] in
  let shown key :=
    visible codeOrder
      {| q_value := "o"; kind_value := kind_all; sort_value := key |} files in
  rev (shown "size-desc") = shown "size-asc"
  /\ rev (shown "mtime-desc") = shown "mtime-asc"
  /\ rev (shown "name-desc") = shown "name-asc"
  /\ map name (shown "name-asc") = [ "notes.txt"; "photo.PNG"; "report.pdf" ]
  /\ map name (shown "size-desc") = [ "photo.PNG"; "report.pdf"; "notes.txt" ].
Proof.
  intros files shown.
  destruct (reversal_equivalence codeOrder "o" kind_all files)
    as (Hsize & Hmtime & Hname).
  split; [|split; [|split; [|split]]].
  - apply Hsize. repeat constructor; simpl; lia.
  - apply Hmtime. repeat constructor; simpl; intro H; vm_compute in H;
      discriminate.
  - apply Hname.
    + exact codeOrder_consistent.
    + repeat constructor; vm_compute; discriminate.
  - reflexivity.
  - reflexivity.
Defined.

(** * Further properties of the code *)

(** ** [escapeHtml] *)

Lemma escapeChar_special (ch : ascii) :
  htmlSpecial ch = true ->
  (ch = "&"%char /\ escapeChar ch = "&amp;")
  \/ (ch = "<"%char /\ escapeChar ch = "&lt;")
  \/ (ch = ">"%char /\ escapeChar ch = "&gt;")
  \/ (ch = ascii_of_N 34 /\ escapeChar ch = "&quot;")
  \/ (ch = "'"%char /\ escapeChar ch = "&#39;").
Proof.
  unfold htmlSpecial, escapeChar.
  destruct (Ascii.eqb ch "&"%char) eqn:E1;
    [apply Ascii.eqb_eq in E1; auto|].
  destruct (Ascii.eqb ch "<"%char) eqn:E2;
    [apply Ascii.eqb_eq in E2; auto|].
  destruct (Ascii.eqb ch ">"%char) eqn:E3;
    [apply Ascii.eqb_eq in E3; auto|].
  destruct (Ascii.eqb ch (ascii_of_N 34)) eqn:E4;
    [apply Ascii.eqb_eq in E4; auto 6|].
  destruct (Ascii.eqb ch "'"%char) eqn:E5;
    [apply Ascii.eqb_eq in E5; auto 6|].
  discriminate.
Qed.

Lemma escapeChar_plain (ch : ascii) :
  htmlSpecial ch = false -> escapeChar ch = String ch EmptyString.
Proof.
  unfold htmlSpecial, escapeChar. intro H.
  repeat (apply orb_false_iff in H; destruct H as [H ?]).
  repeat match goal with E : _ = false |- _ => rewrite E; clear E end.
  reflexivity.
Qed.

Lemma hasChar_app (c : ascii) (s t : string) :
  hasChar c (s ++ t) = hasChar c s || hasChar c t.
Proof.
  induction s as [|d s IH]; simpl.
  - reflexivity.
  - rewrite IH. apply orb_assoc.
Qed.

Lemma escapeHtml_no_char (c : ascii) (s : string) :
  htmlSpecial c = true -> c <> "&"%char ->
  hasChar c (escapeHtml s) = false.
Proof.
  intros Hc Hamp. induction s as [|ch t IH]; simpl.
  - reflexivity.
  - rewrite hasChar_app, IH, orb_false_r.
    destruct (htmlSpecial ch) eqn:E.
    + destruct (escapeChar_special c Hc)
        as [[-> _]|[[-> _]|[[-> _]|[[-> _]|[-> _]]]]]; [congruence| | | |];
      destruct (escapeChar_special ch E)
        as [[_ ->]|[[_ ->]|[[_ ->]|[[_ ->]|[_ ->]]]]]; reflexivity.
    + rewrite (escapeChar_plain ch E). simpl. rewrite orb_false_r.
      apply Ascii.eqb_neq. intros ->. congruence.
Qed.

Lemma string_app_assoc (a b c : string) :
  ((a ++ b) ++ c)%string = (a ++ (b ++ c))%string.
Proof.
  induction a as [|x a IH]; simpl; [reflexivity | rewrite IH; reflexivity].
Qed.

Lemma string_app_length (a b : string) :
  String.length (a ++ b) = (String.length a + String.length b)%nat.
Proof.
  induction a as [|x a IH]; simpl; [reflexivity | rewrite IH; reflexivity].
Qed.

Lemma escapeChar_length (ch : ascii) :
  (1 <= String.length (escapeChar ch))%nat.
Proof.
  destruct (htmlSpecial ch) eqn:E.
  - destruct (escapeChar_special ch E)
      as [[_ ->]|[[_ ->]|[[_ ->]|[[_ ->]|[_ ->]]]]]; simpl; lia.
  - rewrite (escapeChar_plain ch E). simpl. lia.
Qed.

Lemma escapeHtml_length (s : string) :
  (String.length s <= String.length (escapeHtml s))%nat.
Proof.
  induction s as [|ch t IH]; simpl.
  - lia.
  - rewrite string_app_length. pose proof (escapeChar_length ch). lia.
Qed.

Lemma unescapeHtml_keep (c : ascii) (r : string) :
  Ascii.eqb c "&"%char = false ->
  unescapeHtml (String c r) = String c (unescapeHtml r).
Proof. intro H. simpl. rewrite H. reflexivity. Qed.

Lemma unescape_escape (s : string) : unescapeHtml (escapeHtml s) = s.
Proof.
  induction s as [|ch t IH].
  - reflexivity.
  - change (escapeHtml (String ch t))
      with (escapeChar ch ++ escapeHtml t)%string.
    destruct (htmlSpecial ch) eqn:E.
    + destruct (escapeChar_special ch E)
        as [[-> ->]|[[-> ->]|[[-> ->]|[[-> ->]|[-> ->]]]]];
        cbn; rewrite IH; reflexivity.
    + rewrite (escapeChar_plain ch E).
      change (String ch EmptyString ++ escapeHtml t)%string
        with (String ch (escapeHtml t)).
      rewrite unescapeHtml_keep, IH; [reflexivity|].
      unfold htmlSpecial in E.
      repeat (apply orb_false_iff in E; destruct E as [E ?]). exact E.
Qed.

(** X1: whatever the input, the text [escapeHtml] returns holds none of
    the characters that open or close a tag or delimit an attribute
    value. *)
Theorem escapeHtml_removes_markup_characters (s : string) :
  hasChar "<"%char (escapeHtml s) = false
  /\ hasChar ">"%char (escapeHtml s) = false
  /\ hasChar (ascii_of_N 34) (escapeHtml s) = false
  /\ hasChar "'"%char (escapeHtml s) = false.
Proof.
  repeat split; apply escapeHtml_no_char; (reflexivity || discriminate).
Qed.

(** X2: [escapeHtml] returns its argument unchanged exactly when the
    argument holds none of the five characters it replaces. *)
Theorem escapeHtml_identity_iff_plain (s : string) :
  escapeHtml s = s <-> htmlPlain s = true.
Proof.
  induction s as [|ch t IH]; simpl.
  - tauto.
  - destruct (htmlSpecial ch) eqn:E; simpl.
    + split; [|discriminate]. intro H. exfalso.
      pose proof (escapeHtml_length t) as Hlen.
      destruct (escapeChar_special ch E)
        as [[-> He]|[[-> He]|[[-> He]|[[-> He]|[-> He]]]]];
        rewrite He in H; simpl in H; try discriminate.
      injection H as H. apply (f_equal String.length) in H.
      simpl in H. lia.
    + rewrite (escapeChar_plain ch E). simpl. rewrite <- IH.
      split; [intro H; injection H; auto | intros ->; reflexivity].
Qed.

(** X3: [escapeHtml] never maps two different texts to the same text. *)
Theorem escapeHtml_injective (s t : string) :
  escapeHtml s = escapeHtml t -> s = t.
Proof.
  intro H. rewrite <- (unescape_escape s), <- (unescape_escape t), H.
  reflexivity.
Qed.

Lemma escapeHtml_injective_witness : "a<b" = "a<b".
Proof. apply (escapeHtml_injective "a<b" "a<b"). reflexivity. Defined.

(** X4: escaping a concatenation is concatenating the escaped parts, so
    a text can be escaped piece by piece. *)
Theorem escapeHtml_app (s t : string) :
  escapeHtml (s ++ t) = (escapeHtml s ++ escapeHtml t)%string.
Proof.
  induction s as [|ch s IH]; simpl.
  - reflexivity.
  - rewrite IH, string_app_assoc. reflexivity.
Qed.

(** ** [path.extname] and [asExt] on names without a separator *)

Lemma is_dot_eqb (c : ascii) : Path.is_dot c = Ascii.eqb c "."%char.
Proof. destruct c as [[] [] [] [] [] [] [] []]; reflexivity. Qed.

Lemma is_slash_eqb (c : ascii) : Path.is_slash c = Ascii.eqb c "/"%char.
Proof. destruct c as [[] [] [] [] [] [] [] []]; reflexivity. Qed.

Lemma chars_app (s t : string) :
  list_ascii_of_string (s ++ t)
  = list_ascii_of_string s ++ list_ascii_of_string t.
Proof.
  induction s as [|c s IH]; simpl; [reflexivity | rewrite IH; reflexivity].
Qed.

Lemma chars_length (s : string) :
  List.length (list_ascii_of_string s) = String.length s.
Proof.
  induction s as [|c s IH]; simpl; [reflexivity | rewrite IH; reflexivity].
Qed.

Lemma hasChar_Forall (c : ascii) (s : string) :
  hasChar c s = false ->
  Forall (fun d => Ascii.eqb d c = false) (list_ascii_of_string s).
Proof.
  induction s as [|d s IH]; simpl; intro H.
  - constructor.
  - apply orb_false_iff in H. destruct H as [Hd Hs].
    constructor; [exact Hd | apply IH, Hs].
Qed.

Lemma step_no_break (c : ascii) (i : Z) (st : Path.scan) :
  Path.is_slash c = false -> snd (Path.step c i st) = false.
Proof. intro H. unfold Path.step. rewrite H. reflexivity. Qed.

(** The loop never breaks on a character that is no separator. *)
Lemma loop_app (l1 l2 : list ascii) :
  Forall (fun d => Path.is_slash d = false) l1 ->
  forall i st,
    Path.loop (l1 ++ l2) i st
    = Path.loop l2 (i - Z.of_nat (List.length l1)) (Path.loop l1 i st).
Proof.
  induction 1 as [|c l1 Hc _ IH]; intros i st.
  - simpl. f_equal. lia.
  - cbn [app Path.loop List.length].
    pose proof (step_no_break c i st Hc) as Hb.
    destruct (Path.step c i st) as [st' stop]. simpl in Hb. subst stop.
    rewrite IH. f_equal. lia.
Qed.

Lemma step_plain (c : ascii) (i : Z) (st : Path.scan) :
  Path.is_slash c = false -> Path.is_dot c = false ->
  Path.startDot st = -1 ->
  exists st',
    Path.step c i st = (st', false)
    /\ Path.startDot st' = -1
    /\ Path.startPart st' = Path.startPart st
    /\ Path.preDotState st' = Path.preDotState st
    /\ Path.endPos st'
       = if Path.endPos st =? -1 then i + 1 else Path.endPos st.
Proof.
  intros Hc Hc' Hdot. unfold Path.step. rewrite Hc, Hc'. cbv zeta.
  destruct (Path.endPos st =? -1) eqn:E; cbn; rewrite ?Hdot; cbn;
    eexists; (split; [reflexivity|]); cbn; auto.
Qed.

Lemma step_first_dot (c : ascii) (i : Z) (st : Path.scan) :
  Path.is_slash c = false -> Path.is_dot c = true ->
  Path.startDot st = -1 ->
  exists st',
    Path.step c i st = (st', false)
    /\ Path.startDot st' = i
    /\ Path.startPart st' = Path.startPart st
    /\ Path.preDotState st' = Path.preDotState st
    /\ Path.endPos st'
       = if Path.endPos st =? -1 then i + 1 else Path.endPos st.
Proof.
  intros Hc Hc' Hdot. unfold Path.step. rewrite Hc, Hc'. cbv zeta.
  destruct (Path.endPos st =? -1) eqn:E; cbn; rewrite ?Hdot; cbn;
    eexists; (split; [reflexivity|]); cbn; auto.
Qed.

Lemma step_later (c : ascii) (i : Z) (st : Path.scan) :
  Path.is_slash c = false ->
  Path.startDot st <> -1 -> Path.endPos st <> -1 ->
  exists st',
    Path.step c i st = (st', false)
    /\ Path.startDot st' = Path.startDot st
    /\ Path.startPart st' = Path.startPart st
    /\ Path.endPos st' = Path.endPos st
    /\ Path.preDotState st' = if Path.is_dot c then 1 else -1.
Proof.
  intros Hc Hdot Hend. unfold Path.step. rewrite Hc. cbv zeta.
  apply Z.eqb_neq in Hend, Hdot. rewrite Hend, Hdot. cbn [negb].
  destruct (Path.is_dot c).
  - destruct (Path.preDotState st =? 1) eqn:E; cbn [negb];
      eexists; (split; [reflexivity|]); cbn; auto.
    apply Z.eqb_eq in E. auto.
  - eexists; (split; [reflexivity|]); cbn; auto.
Qed.

(** Before the first dot is met: only the end of the name is recorded. *)
Lemma loop_before_dot (l : list ascii) :
  Forall (fun d => Path.is_slash d = false) l ->
  Forall (fun d => Path.is_dot d = false) l ->
  forall i st,
    Path.startDot st = -1 -> (Path.endPos st <> -1 \/ 0 <= i) ->
    Path.startDot (Path.loop l i st) = -1
    /\ Path.startPart (Path.loop l i st) = Path.startPart st
    /\ Path.preDotState (Path.loop l i st) = Path.preDotState st
    /\ Path.endPos (Path.loop l i st)
       = match l with
         | [] => Path.endPos st
         | _ => if Path.endPos st =? -1 then i + 1 else Path.endPos st
         end.
Proof.
  induction l as [|c l IH]; intros Hs Hd i st Hdot Hend.
  - simpl. auto.
  - inversion Hs as [|? ? Hc Hs']; subst.
    inversion Hd as [|? ? Hc' Hd']; subst.
    destruct (step_plain c i st Hc Hc' Hdot)
      as (st' & Hstep & S1 & S2 & S3 & S4).
    cbn [Path.loop]. rewrite Hstep.
    assert (Hend' : Path.endPos st' <> -1).
    { rewrite S4. destruct (Path.endPos st =? -1) eqn:E.
      - apply Z.eqb_eq in E. lia.
      - apply Z.eqb_neq, E. }
    destruct (IH Hs' Hd' (i - 1) st' S1 (or_introl Hend'))
      as (H1 & H2 & H3 & H4).
    rewrite H1, H2, H3, H4, S2, S3. repeat split.
    destruct l; [exact S4|].
    apply Z.eqb_neq in Hend'. rewrite Hend'. exact S4.
Qed.

(** After the first dot is met: only the kind of the latest character is
    recorded. *)
Lemma loop_after_dot (l : list ascii) :
  Forall (fun d => Path.is_slash d = false) l ->
  forall i st,
    Path.startDot st <> -1 -> Path.endPos st <> -1 ->
    Path.startDot (Path.loop l i st) = Path.startDot st
    /\ Path.startPart (Path.loop l i st) = Path.startPart st
    /\ Path.endPos (Path.loop l i st) = Path.endPos st
    /\ Path.preDotState (Path.loop l i st)
       = match l with
         | [] => Path.preDotState st
         | _ => if Path.is_dot (last l "."%char) then 1 else -1
         end.
Proof.
  induction l as [|c l IH]; intros Hs i st Hdot Hend.
  - simpl. auto.
  - inversion Hs as [|? ? Hc Hs']; subst.
    destruct (step_later c i st Hc Hdot Hend)
      as (st' & Hstep & S1 & S2 & S3 & S4).
    cbn [Path.loop]. rewrite Hstep.
    destruct (IH Hs' (i - 1) st') as (H1 & H2 & H3 & H4);
      [congruence | congruence|].
    rewrite H1, H2, H3, H4, S1, S2, S3. repeat split.
    destruct l; [exact S4 | reflexivity].
Qed.

Lemma rev_chars_split (base suf : string) :
  rev (list_ascii_of_string (base ++ String "."%char suf))
  = rev (list_ascii_of_string suf)
    ++ "."%char :: rev (list_ascii_of_string base).
Proof.
  rewrite chars_app. simpl. rewrite rev_app_distr. simpl.
  rewrite <- app_assoc. reflexivity.
Qed.

Lemma no_slash_rev (s : string) :
  hasChar "/"%char s = false ->
  Forall (fun d => Path.is_slash d = false) (rev (list_ascii_of_string s)).
Proof.
  intro H. apply Forall_rev.
  eapply Forall_impl; [|apply hasChar_Forall, H].
  intros d Hd. rewrite is_slash_eqb. exact Hd.
Qed.

Lemma no_dot_rev (s : string) :
  hasChar "."%char s = false ->
  Forall (fun d => Path.is_dot d = false) (rev (list_ascii_of_string s)).
Proof.
  intro H. apply Forall_rev.
  eapply Forall_impl; [|apply hasChar_Forall, H].
  intros d Hd. rewrite is_dot_eqb. exact Hd.
Qed.

(** The state the scan ends in for [base.suf], where [suf] holds no dot
    and no character is a separator. *)
Lemma scan_split (base suf : string) :
  hasChar "/"%char base = false -> hasChar "/"%char suf = false ->
  hasChar "."%char suf = false ->
  let p := (base ++ String "."%char suf)%string in
  let chars := list_ascii_of_string p in
  let st := Path.loop (rev chars) (Z.of_nat (List.length chars) - 1)
              Path.scan0 in
  Path.startDot st = Z.of_nat (String.length base)
  /\ Path.startPart st = 0
  /\ Path.endPos st = Z.of_nat (String.length p)
  /\ Path.preDotState st
     = match base with
       | EmptyString => 0
       | String c _ => if Path.is_dot c then 1 else -1
       end.
Proof.
  intros Hb Hs Hd p chars st.
  assert (Hlen : List.length chars
                 = (String.length base + S (String.length suf))%nat).
  { unfold chars, p. rewrite chars_length, string_app_length. reflexivity. }
  assert (Hp : String.length p
               = (String.length base + S (String.length suf))%nat).
  { unfold p. rewrite string_app_length. reflexivity. }
  unfold st, chars, p. rewrite rev_chars_split.
  rewrite loop_app by (apply no_slash_rev, Hs).
  fold p. fold chars. rewrite Hlen, Hp.
  rewrite length_rev, chars_length.
  set (n := Z.of_nat (String.length base + S (String.length suf))).
  destruct (loop_before_dot (rev (list_ascii_of_string suf))
              (no_slash_rev suf Hs) (no_dot_rev suf Hd) (n - 1) Path.scan0
              eq_refl)
    as (A1 & A2 & A3 & A4); [right; unfold n; lia|].
  set (stA := Path.loop (rev (list_ascii_of_string suf)) (n - 1) Path.scan0)
    in *.
  set (j := n - 1 - Z.of_nat (String.length suf)).
  assert (Hj : j = Z.of_nat (String.length base)) by (unfold j, n; lia).
  destruct (step_first_dot "."%char j stA eq_refl eq_refl A1)
    as (stD & Hstep & D1 & D2 & D3 & D4).
  cbn [Path.loop]. rewrite Hstep.
  assert (A4' : Path.endPos stA = if Text.is_empty suf then -1 else n).
  { rewrite A4. destruct suf as [|c suf]; [reflexivity|]. simpl rev.
    destruct (rev (list_ascii_of_string suf) ++ [c]) eqn:E.
    - apply app_eq_nil in E. destruct E; discriminate.
    - change (Path.endPos Path.scan0 =? -1) with true. cbv iota.
      simpl Text.is_empty. cbv iota. lia. }
  assert (D4' : Path.endPos stD = n).
  { rewrite D4, A4'. destruct suf as [|c suf]; simpl Text.is_empty; cbv iota.
    - change (-1 =? -1) with true. cbv iota. unfold j, n. simpl String.length.
      lia.
    - destruct (n =? -1) eqn:E'; [|reflexivity].
      apply Z.eqb_eq in E'. unfold n in E'. lia. }
  destruct (loop_after_dot (rev (list_ascii_of_string base))
              (no_slash_rev base Hb) (j - 1) stD)
    as (B1 & B2 & B3 & B4); [lia | unfold n in D4'; lia|].
  rewrite B1, B2, B3, B4, D1, D2, D3, D4', A2, A3.
  repeat split; [exact Hj|].
  destruct base as [|c base]; [reflexivity|].
  simpl rev.
  destruct (rev (list_ascii_of_string base) ++ [c]) eqn:E.
  - apply app_eq_nil in E. destruct E; discriminate.
  - rewrite <- E, last_last. reflexivity.
Qed.

Lemma substring_skip (a b : string) (k : nat) :
  substring (String.length a) k (a ++ b) = substring 0 k b.
Proof. induction a as [|c a IH]; simpl; [reflexivity | exact IH]. Qed.

Lemma substring_all (s : string) : substring 0 (String.length s) s = s.
Proof.
  induction s as [|c s IH]; simpl; [reflexivity | rewrite IH; reflexivity].
Qed.

Lemma extname_dotted (base suf : string) :
  hasChar "/"%char base = false -> hasChar "/"%char suf = false ->
  hasChar "."%char suf = false ->
  Path.extname (base ++ String "."%char suf)
  = if Text.is_empty base || (String.eqb base "." && Text.is_empty suf)
    then EmptyString else String "."%char suf.
Proof.
  intros Hb Hs Hd.
  pose proof (scan_split base suf Hb Hs Hd) as H. cbv zeta in H.
  destruct H as (S1 & S2 & S3 & S4).
  unfold Path.extname. rewrite S1, S2, S3, S4.
  rewrite string_app_length. simpl String.length.
  set (b := String.length base). set (k := String.length suf).
  assert (E1 : (Z.of_nat b =? -1) = false) by (apply Z.eqb_neq; lia).
  assert (E2 : (Z.of_nat (b + S k) =? -1) = false) by (apply Z.eqb_neq; lia).
  rewrite E1, E2. cbn [orb].
  assert (Hslice : Text.slice (base ++ String "."%char suf) (Z.of_nat b)
                     (Z.of_nat (b + S k)) = String "."%char suf).
  { unfold Text.slice. rewrite Nat2Z.id.
    replace (Z.to_nat (Z.of_nat (b + S k) - Z.of_nat b)) with (S k) by lia.
    unfold b. rewrite substring_skip. unfold k.
    change (S (String.length suf)) with (String.length (String "."%char suf)).
    apply substring_all. }
  rewrite Hslice.
  destruct base as [|c base]; [reflexivity|].
  simpl Text.is_empty. cbn [orb].
  destruct (Path.is_dot c) eqn:Ec.
  - change (1 =? 0) with false. change (1 =? 1) with true. cbn [orb andb].
    rewrite is_dot_eqb in Ec. apply Ascii.eqb_eq in Ec. subst c.
    destruct base as [|c' base].
    + destruct suf as [|c' suf]; [reflexivity|].
      simpl Text.is_empty. rewrite andb_false_r.
      replace (Z.of_nat b =? Z.of_nat (b + S k) - 1) with false;
        [reflexivity|].
      symmetry. apply Z.eqb_neq. unfold k. simpl String.length. lia.
    + replace (String.eqb (String "."%char (String c' base)) ".") with false
        by (simpl; destruct c' as [[] [] [] [] [] [] [] []]; reflexivity).
      cbn [andb].
      replace (Z.of_nat b =? 0 + 1) with false;
        [rewrite andb_false_r; reflexivity|].
      symmetry. apply Z.eqb_neq. unfold b. simpl String.length. lia.
  - change (-1 =? 0) with false. change (-1 =? 1) with false. cbn [orb andb].
    replace (String.eqb (String c base) ".") with false; [reflexivity|].
    symmetry. apply String.eqb_neq. intro H. injection H as -> _.
    vm_compute in Ec. discriminate Ec.
Qed.

Lemma extname_dotless (n : string) :
  hasChar "/"%char n = false -> hasChar "."%char n = false ->
  Path.extname n = EmptyString.
Proof.
  intros Hs Hd. destruct n as [|c n]; [reflexivity|].
  unfold Path.extname.
  destruct (loop_before_dot (rev (list_ascii_of_string (String c n)))
              (no_slash_rev _ Hs) (no_dot_rev _ Hd)
              (Z.of_nat (List.length (list_ascii_of_string (String c n))) - 1)
              Path.scan0 eq_refl) as (A1 & _).
  - right. simpl List.length. lia.
  - rewrite A1. reflexivity.
Qed.

Lemma lower_char_dot (c : ascii) :
  Ascii.eqb (Text.lower_char c) "."%char = Ascii.eqb c "."%char.
Proof. destruct c as [[] [] [] [] [] [] [] []]; reflexivity. Qed.

Lemma lower_char_slash (c : ascii) :
  Ascii.eqb (Text.lower_char c) "/"%char = Ascii.eqb c "/"%char.
Proof. destruct c as [[] [] [] [] [] [] [] []]; reflexivity. Qed.

Lemma asciiLowerCase_dot (s : string) :
  hasChar "."%char (Text.asciiLowerCase s) = hasChar "."%char s.
Proof.
  induction s as [|c s IH]; simpl; [reflexivity|].
  rewrite lower_char_dot, IH. reflexivity.
Qed.

Lemma asciiLowerCase_slash (s : string) :
  hasChar "/"%char (Text.asciiLowerCase s) = hasChar "/"%char s.
Proof.
  induction s as [|c s IH]; simpl; [reflexivity|].
  rewrite lower_char_slash, IH. reflexivity.
Qed.

(** The extension of a name whose [extname] is a dot and ASCII
    characters. *)
Lemma asExt_of_extname {P : Platform} (n suf : string) :
  asciiAgrees P ->
  Path.extname n = String "."%char suf -> Text.isAscii suf = true ->
  asExt n = Text.asciiLowerCase suf.
Proof.
  intros HP H Hascii. unfold asExt. rewrite H.
  rewrite (HP (String "."%char suf)) by (simpl; exact Hascii).
  change (Text.asciiLowerCase (String "."%char suf))
    with (String "."%char (Text.asciiLowerCase suf)).
  change (Text.replaceFirst (String "."%char (Text.asciiLowerCase suf))
            "."%char EmptyString)
    with (Text.asciiLowerCase suf).
  destruct (Text.asciiLowerCase suf); reflexivity.
Qed.

Lemma extname_of_visible_name (base suf : string) :
  Text.startsWith (base ++ "." ++ suf) "." = false ->
  hasChar "/"%char (base ++ "." ++ suf) = false ->
  hasChar "."%char suf = false ->
  Path.extname (base ++ "." ++ suf) = String "."%char suf.
Proof.
  intros Hv Hs Hd.
  rewrite hasChar_app in Hs. apply orb_false_iff in Hs.
  destruct Hs as [Hb Hs]. simpl in Hs.
  change ("." ++ suf)%string with (String "."%char suf) in *.
  rewrite (extname_dotted base suf Hb Hs Hd).
  destruct base as [|c base].
  - destruct suf; vm_compute in Hv; discriminate Hv.
  - simpl Text.is_empty. cbn [orb].
    destruct (String.eqb (String c base) ".") eqn:E; [|reflexivity].
    apply String.eqb_eq in E. rewrite E in Hv.
    destruct suf; vm_compute in Hv; discriminate Hv.
Qed.

(** X5: for a name [base.suf] without separators, where [base] is not
    empty, the name is not [..], and [suf] holds no dot and only ASCII
    characters, the extension is [suf] with the letters A to Z replaced
    by a to z; [toLowerCase] being, on ASCII text, the ASCII mapping. *)
Theorem asExt_after_last_dot {P : Platform} (base suf : string) :
  asciiAgrees P ->
  base <> EmptyString -> ~ (base = "." /\ suf = EmptyString) ->
  hasChar "/"%char base = false -> hasChar "/"%char suf = false ->
  hasChar "."%char suf = false -> Text.isAscii suf = true ->
  asExt (base ++ "." ++ suf) = Text.asciiLowerCase suf.
Proof.
  intros HP Hne Hdd Hb Hs Hd Hascii.
  apply (asExt_of_extname _ suf HP); [|exact Hascii].
  change ("." ++ suf)%string with (String "."%char suf).
  rewrite (extname_dotted base suf Hb Hs Hd).
  destruct base as [|c base]; [congruence|]. simpl Text.is_empty. cbn [orb].
  destruct (String.eqb (String c base) ".") eqn:E; [|reflexivity].
  apply String.eqb_eq in E.
  destruct suf; [tauto | reflexivity].
Qed.

Lemma asExt_after_last_dot_witness :
  asExt ("archive.TAR" ++ "." ++ "GZ") = "gz".
Proof.
  apply (asExt_after_last_dot "archive.TAR" "GZ").
  - exact ascii_asciiAgrees.
  - discriminate.
  - intros [H _]. discriminate.
  - reflexivity.
  - reflexivity.
  - reflexivity.
  - reflexivity.
Defined.

Lemma asExt_empty_dotless (n : string) :
  hasChar "/"%char n = false -> hasChar "."%char n = false ->
  asExt n = EmptyString.
Proof.
  intros Hs Hd. unfold asExt. rewrite (extname_dotless n Hs Hd). reflexivity.
Qed.

(** X6: a name without separators has the empty extension when it holds
    no dot, and also when its only dot is its first character. *)
Theorem asExt_empty_without_inner_dot (n : string) :
  hasChar "/"%char n = false -> hasChar "."%char n = false ->
  asExt n = EmptyString /\ asExt ("." ++ n) = EmptyString.
Proof.
  intros Hs Hd. unfold asExt.
  rewrite (extname_dotless n Hs Hd).
  change ("." ++ n)%string with (EmptyString ++ String "."%char n)%string.
  rewrite (extname_dotted EmptyString n eq_refl Hs Hd).
  split; reflexivity.
Qed.

Lemma asExt_empty_without_inner_dot_witness :
  asExt "Makefile" = EmptyString /\ asExt ("." ++ "Makefile") = EmptyString.
Proof.
  apply (asExt_empty_without_inner_dot "Makefile"); reflexivity.
Defined.

(** X7: in a written page, for a listing whose names hold no separator:
    a record whose name holds no dot has the empty extension ([toLowerCase]
    leaving the empty text empty); and when what follows the last dot of
    the name is made of ASCII characters, the extension is that text with
    the letters A to Z replaced by a to z, and holds neither a dot nor a
    separator. *)
Theorem page_extension_follows_last_dot {P : Platform} (w : World)
  (entries : list Dirent) (page : Page) (f : FileRecord) :
  asciiAgrees P ->
  readdir w (cwd w) = Ok entries ->
  Forall (fun e => hasChar "/"%char (d_name e) = false) entries ->
  written (effects (run w)) = Some page ->
  In f (FILES page) ->
  (hasChar "."%char (name f) = false -> ext f = EmptyString)
  /\ (forall base suf,
        name f = (base ++ "." ++ suf)%string ->
        hasChar "."%char suf = false -> Text.isAscii suf = true ->
        ext f = Text.asciiLowerCase suf
        /\ hasChar "."%char (ext f) = false
        /\ hasChar "/"%char (ext f) = false).
Proof.
  intros HP Hr Hns Hw Hin.
  destruct (page_record_origin w entries page f Hr Hw Hin)
    as (e & st & He & Hel & _ & ->).
  cbn [ext name viaJSON mkRecord].
  rewrite Forall_forall in Hns. specialize (Hns e He).
  apply eligible_iff in Hel. destruct Hel as (_ & _ & Hv).
  split.
  - intro Hd. unfold asExt. rewrite (extname_dotless _ Hns Hd).
    rewrite (HP EmptyString eq_refl). reflexivity.
  - intros base suf Hn Hd Hascii. rewrite Hn in Hns, Hv |- *.
    pose proof (extname_of_visible_name base suf Hv Hns Hd) as Hx.
    rewrite (asExt_of_extname _ suf HP Hx Hascii).
    rewrite asciiLowerCase_dot, asciiLowerCase_slash.
    rewrite !hasChar_app in Hns. apply orb_false_iff in Hns.
    destruct Hns as [_ Hns]. simpl in Hns. auto.
Qed.

Lemma page_extension_follows_last_dot_witness :
  let f := {| name := "photo.PNG"; ext := "png"; size := 500000;
              mtimeMs := 13600000040001 # 8; preview := JString "image" |} in
  ext f = Text.asciiLowerCase "PNG"
  /\ hasChar "."%char (ext f) = false
  /\ hasChar "/"%char (ext f) = false.
Proof.
  intro f.
  apply (page_extension_follows_last_dot scenarioWorld
           [ file "report.pdf"; file "photo.PNG"; file ".hidden";
             directory "docs"; file "index.html" ]
           {| FILES :=
             [ f;
               {| name := "report.pdf"; ext := "pdf"; size := 2048;
                  mtimeMs := inject_Z 1700000000000;
                  preview := JString "pdf" |} ] |}
           f ascii_asciiAgrees eq_refl) with (base := "photo").
  - repeat constructor.
  - reflexivity.
  - left. reflexivity.
  - reflexivity.
  - reflexivity.
  - reflexivity.
Defined.

(** ** The list the page shows *)

Lemma filter_all {A : Type} (p : A -> bool) (l : list A) :
  (forall x, In x l -> p x = true) -> filter p l = l.
Proof.
  induction l as [|x l IH]; simpl; intro H.
  - reflexivity.
  - rewrite (H x (or_introl eq_refl)). f_equal.
    apply IH. intros y Hy. apply H. right. exact Hy.
Qed.

Lemma filter_filter {A : Type} (p q : A -> bool) (l : list A) :
  filter q (filter p l) = filter (fun x => p x && q x) l.
Proof.
  induction l as [|x l IH]; simpl.
  - reflexivity.
  - destruct (p x); simpl; [destruct (q x); simpl; congruence | exact IH].
Qed.

(** [visible] is the sort of the records that pass the two filters. *)
Lemma visible_passes {P : Platform}
  (localeCompare : string -> string -> Z) (ui : Controls)
  (files : list FileRecord) :
  visible localeCompare ui files
  = JsArray.sort (comparator localeCompare (sort_value ui))
      (filter (passes ui) files).
Proof.
  unfold visible, passes, passesText, passesKind.
  destruct (Text.is_empty (termOf ui)), (Text.is_empty (kind_value ui));
    simpl; f_equal;
    first [ apply filter_filter
          | symmetry; apply filter_all; reflexivity
          | apply filter_ext; intro f; rewrite ?andb_true_r; reflexivity ].
Qed.

Section SortedInput.
Context {A : Type}.
Variable compare : A -> A -> Q.

(** Sorting leaves a sorted array as it is. *)
Lemma sort_sorted_id (l : list A) :
  StronglySorted (JsArray.notAfter compare) l -> JsArray.sort compare l = l.
Proof.
  induction 1 as [|x t Hs IH Hx]; simpl.
  - reflexivity.
  - rewrite IH. destruct t as [|y t]; [reflexivity|].
    simpl. inversion Hx as [|? ? Hxy _]; subst.
    apply after_false in Hxy. rewrite Hxy. reflexivity.
Qed.

(** A comparator that always answers zero leaves any array as it is. *)
Lemma sort_zero (l : list A) :
  (forall a b, (compare a b == 0)%Q) -> JsArray.sort compare l = l.
Proof.
  intro Hz. apply sort_sorted_id.
  induction l as [|x l IH]; constructor; [exact IH|].
  apply Forall_forall. intros y _. unfold JsArray.notAfter.
  rewrite (Hz x y). apply Qle_refl.
Qed.
End SortedInput.

Lemma StronglySorted_map {A B : Type} (R : A -> A -> Prop)
  (R' : B -> B -> Prop) (g : A -> B) (l : list A) :
  (forall a b, R a b -> R' (g a) (g b)) ->
  StronglySorted R l -> StronglySorted R' (map g l).
Proof.
  intros Hg. induction 1 as [|x t Hs IH Hx]; simpl; constructor.
  - exact IH.
  - apply Forall_map. eapply Forall_impl; [|exact Hx].
    intros y. apply Hg.
Qed.

(** Each comparator of the switch orders, when [localeCompare] does. *)
Lemma comparator_consistent (localeCompare : string -> string -> Z)
  (sorter : string) :
  consistentCollation localeCompare ->
  (forall x y z,
     JsArray.notAfter (comparator localeCompare sorter) x y ->
     JsArray.notAfter (comparator localeCompare sorter) y z ->
     JsArray.notAfter (comparator localeCompare sorter) x z)
  /\ (forall x y,
        (0 < comparator localeCompare sorter x y)%Q ->
        JsArray.notAfter (comparator localeCompare sorter) y x).
Proof.
  intros [Hanti Htrans]. unfold JsArray.notAfter, comparator.
  destruct (String.eqb sorter "mtime-asc"); [split; intros; lra|].
  destruct (String.eqb sorter "mtime-desc"); [split; intros; lra|].
  destruct (String.eqb sorter "name-asc").
  { split.
    - intros x y z. rewrite !inject_Z_le0. apply Htrans.
    - intros x y. rewrite inject_Z_gt0, inject_Z_le0. intro H.
      apply Hanti in H. lia. }
  destruct (String.eqb sorter "name-desc").
  { split.
    - intros x y z. rewrite !inject_Z_le0. intros H1 H2.
      eapply Htrans; eassumption.
    - intros x y. rewrite inject_Z_gt0, inject_Z_le0. intro H.
      apply Hanti in H. lia. }
  destruct (String.eqb sorter "size-asc").
  { split; intros *; rewrite ?inject_Z_le0, ?inject_Z_gt0; lia. }
  destruct (String.eqb sorter "size-desc").
  { split; intros *; rewrite ?inject_Z_le0, ?inject_Z_gt0; lia. }
  split; intros; lra.
Qed.

(** X8: applying the filters to the list already shown changes nothing:
    [visible] is idempotent, for every query, kind and sort key, when
    [localeCompare] is a comparison that orders. *)
Theorem visible_idempotent {P : Platform}
  (localeCompare : string -> string -> Z)
  (ui : Controls) (files : list FileRecord) :
  consistentCollation localeCompare ->
  visible localeCompare ui (visible localeCompare ui files)
  = visible localeCompare ui files.
Proof.
  intro Hc. rewrite !visible_passes.
  set (cmp := comparator localeCompare (sort_value ui)).
  set (l := filter (passes ui) files).
  rewrite (filter_all (passes ui) (JsArray.sort cmp l)).
  - apply sort_sorted_id.
    destruct (comparator_consistent localeCompare (sort_value ui) Hc)
      as [Htrans Htotal].
    apply sort_sorted; assumption.
  - intros f Hf. apply sort_In in Hf. unfold l in Hf.
    apply filter_In in Hf. tauto.
Qed.

Lemma visible_idempotent_witness :
  let files :=
    [ {| name := "report.pdf"; ext := "pdf"; size := 2048;
         mtimeMs := inject_Z 1700000000000; preview := JString "pdf" |};
      {| name := "photo.PNG"; ext := "png"; size := 500000;
         mtimeMs := 13600000040001 # 8; preview := JString "image" |};
      {| name := "notes.txt"; ext := "txt"; size := 17;
         mtimeMs := inject_Z 1600000000000; preview := JString "text" |} ] in
  let ui := {| q_value := " P"; kind_value := kind_all;
               sort_value := "name-desc" |} in
  visible codeOrder ui (visible codeOrder ui files)
  = visible codeOrder ui files
  /\ map name (visible codeOrder ui files) = [ "report.pdf"; "photo.PNG" ].
Proof.
  intros files ui. split.
  - apply (visible_idempotent codeOrder ui files). exact codeOrder_consistent.
  - reflexivity.
Defined.

(** X9: the list shown holds the records that pass the two filters, each
    as often as the data set holds it, and nothing else. *)
Theorem visible_permutation {P : Platform}
  (localeCompare : string -> string -> Z)
  (ui : Controls) (files : list FileRecord) :
  Permutation (visible localeCompare ui files) (filter (passes ui) files)
  /\ (List.length (visible localeCompare ui files) <= List.length files)%nat.
Proof.
  rewrite visible_passes. split.
  - apply sort_perm.
  - rewrite sort_length. apply filter_length_le.
Qed.

(** X10: for a sort key that is none of the six of the select, the
    comparator answers zero and the records that pass the filters are
    shown in the order of the data set. *)
Theorem unknown_sort_key_keeps_order {P : Platform}
  (localeCompare : string -> string -> Z)
  (ui : Controls) (files : list FileRecord) :
  ~ In (sort_value ui) sortKeys ->
  visible localeCompare ui files = filter (passes ui) files.
Proof.
  intro Hkey. rewrite visible_passes. apply sort_zero.
  intros a b. unfold comparator.
  repeat match goal with
  | |- context [String.eqb (sort_value ui) ?k] =>
      let E := fresh "E" in
      destruct (String.eqb (sort_value ui) k) eqn:E;
      [ apply String.eqb_eq in E; exfalso; apply Hkey; rewrite E;
        simpl; tauto | ]
  end.
  reflexivity.
Qed.

Lemma unknown_sort_key_keeps_order_witness :
  let files :=
    [ {| name := "b.txt"; ext := "txt"; size := 17;
         mtimeMs := inject_Z 1600000000000; preview := JString "text" |};
      {| name := "a.txt"; ext := "txt"; size := 5;
         mtimeMs := inject_Z 1700000000000; preview := JString "text" |} ] in
  let ui := {| q_value := "TXT"; kind_value := "text";
               sort_value := "ext-asc" |} in
  visible codeOrder ui files = filter (passes ui) files
  /\ map name (visible codeOrder ui files) = [ "b.txt"; "a.txt" ].
Proof.
  intros files ui. split.
  - apply (unknown_sort_key_keeps_order codeOrder ui files).
    simpl. intuition discriminate.
  - reflexivity.
Defined.

Lemma StronglySorted_impl {A : Type} (R R' : A -> A -> Prop) (l : list A) :
  (forall a b, R a b -> R' a b) -> StronglySorted R l -> StronglySorted R' l.
Proof.
  intros Himp. induction 1 as [|x t Hs IH Hx]; constructor.
  - exact IH.
  - eapply Forall_impl; [|exact Hx]. intro y. apply Himp.
Qed.

(** X11: under each of the six sort keys the list shown is ordered by
    that key: every record stands before all records that are larger
    (ascending keys) or smaller (descending keys); for the names, in the
    order of [localeCompare], when it is a comparison that orders. *)
Theorem visible_sorted_by_key {P : Platform}
  (localeCompare : string -> string -> Z)
  (q k : string) (files : list FileRecord) :
  let shown key :=
    visible localeCompare
      {| q_value := q; kind_value := k; sort_value := key |} files in
  StronglySorted (fun a b => size a <= size b) (shown "size-asc")
  /\ StronglySorted (fun a b => size b <= size a) (shown "size-desc")
  /\ StronglySorted (fun a b => (mtimeMs a <= mtimeMs b)%Q)
       (shown "mtime-asc")
  /\ StronglySorted (fun a b => (mtimeMs b <= mtimeMs a)%Q)
       (shown "mtime-desc")
  /\ (consistentCollation localeCompare ->
      StronglySorted (fun a b => localeCompare (name a) (name b) <= 0)
        (shown "name-asc")
      /\ StronglySorted (fun a b => localeCompare (name b) (name a) <= 0)
           (shown "name-desc")).
Proof.
  intro shown. subst shown. cbv beta. rewrite !visible_passes.
  cbn [sort_value].
  repeat split.
  - eapply StronglySorted_impl;
      [|apply (sort_sorted (fun a b => inject_Z (size a - size b)))].
    + intros a b. unfold JsArray.notAfter. rewrite inject_Z_le0. lia.
    + intros x y z. unfold JsArray.notAfter. rewrite !inject_Z_le0. lia.
    + intros x y. unfold JsArray.notAfter.
      rewrite inject_Z_gt0, inject_Z_le0. lia.
  - eapply StronglySorted_impl;
      [|apply (sort_sorted (fun a b => inject_Z (size b - size a)))].
    + intros a b. unfold JsArray.notAfter. rewrite inject_Z_le0. lia.
    + intros x y z. unfold JsArray.notAfter. rewrite !inject_Z_le0. lia.
    + intros x y. unfold JsArray.notAfter.
      rewrite inject_Z_gt0, inject_Z_le0. lia.
  - eapply StronglySorted_impl;
      [|apply (sort_sorted (fun a b => (mtimeMs a - mtimeMs b)%Q))].
    + intros a b. unfold JsArray.notAfter. lra.
    + intros x y z. unfold JsArray.notAfter. lra.
    + intros x y. unfold JsArray.notAfter. lra.
  - eapply StronglySorted_impl;
      [|apply (sort_sorted (fun a b => (mtimeMs b - mtimeMs a)%Q))].
    + intros a b. unfold JsArray.notAfter. lra.
    + intros x y z. unfold JsArray.notAfter. lra.
    + intros x y. unfold JsArray.notAfter. lra.
  - destruct (comparator_consistent localeCompare "name-asc" H)
      as [Htrans Htotal].
    eapply StronglySorted_impl; [|apply (sort_sorted _ Htrans Htotal)].
    intros a b. unfold JsArray.notAfter. cbn.
    rewrite inject_Z_le0. tauto.
  - destruct (comparator_consistent localeCompare "name-desc" H)
      as [Htrans Htotal].
    eapply StronglySorted_impl; [|apply (sort_sorted _ Htrans Htotal)].
    intros a b. unfold JsArray.notAfter. cbn.
    rewrite inject_Z_le0. tauto.
Qed.

Lemma visible_sorted_by_key_witness :
  let files :=
    [ {| name := "report.pdf"; ext := "pdf"; size := 2048;
         mtimeMs := inject_Z 1700000000000; preview := JString "pdf" |};
      {| name := "photo.PNG"; ext := "png"; size := 500000;
         mtimeMs := 13600000040001 # 8; preview := JString "image" |};
      {| name := "notes.txt"; ext := "txt"; size := 17;
         mtimeMs := inject_Z 1600000000000; preview := JString "text" |} ] in
  let shown key :=
    visible codeOrder
      {| q_value := EmptyString; kind_value := kind_all; sort_value := key |}
      files in
  StronglySorted (fun a b => codeOrder (name a) (name b) <= 0)
    (shown "name-asc")
  /\ map size (shown "size-asc") = [ 17; 2048; 500000 ].
Proof.
  intros files shown. split; [|reflexivity].
  apply (visible_sorted_by_key codeOrder EmptyString kind_all files).
  exact codeOrder_consistent.
Defined.

(** ** The page at load time and after a reset *)

Lemma page_sorted {P : Platform} (w : World) (page : Page) :
  written (effects (run w)) = Some page ->
  StronglySorted (JsArray.notAfter byMtimeDesc) (FILES page).
Proof.
  intro Hw. apply run_written_inv in Hw.
  destruct Hw as (entries & files & _ & _ & _ & -> & _).
  simpl. unfold JSON_stringify.
  eapply StronglySorted_map;
    [|apply (sort_sorted byMtimeDesc);
      unfold JsArray.notAfter, byMtimeDesc; intros; lra].
  intros a b H. exact H.
Qed.

(** X12: [applyFilters], run with the values the three controls have at
    the script's last line and with those the button [clear] assigns, on
    the data set of a written page, shows the whole data set in the order
    the generator wrote it, whenever [toLowerCase] and [trim] leave the
    empty text empty. *)
Theorem initial_view_is_dataset {P : Platform}
  (localeCompare : string -> string -> Z) (w : World) (page : Page)
  (ui : Controls) :
  emptyStaysEmpty P ->
  written (effects (run w)) = Some page ->
  visible localeCompare initialControls (FILES page) = FILES page
  /\ visible localeCompare (clearClick ui) (FILES page) = FILES page.
Proof.
  intros [Hlow Htrim] Hw. pose proof (page_sorted w page Hw) as Hs.
  assert (Hterm : forall k s,
             termOf {| q_value := EmptyString; kind_value := k;
                       sort_value := s |} = EmptyString).
  { intros k s. unfold termOf. simpl. rewrite Hlow. exact Htrim. }
  split; rewrite visible_passes;
    (rewrite filter_all
       by (intros f _; unfold passes, passesText, initialControls,
             clearClick; rewrite Hterm; reflexivity));
    apply sort_sorted_id; exact Hs.
Qed.

Lemma initial_view_is_dataset_witness :
  let files :=
    [ {| name := "photo.PNG"; ext := "png"; size := 500000;
         mtimeMs := 13600000040001 # 8; preview := JString "image" |};
      {| name := "report.pdf"; ext := "pdf"; size := 2048;
         mtimeMs := inject_Z 1700000000000; preview := JString "pdf" |} ] in
  visible codeOrder initialControls files = files
  /\ visible codeOrder
       (clearClick {| q_value := "pdf"; kind_value := "pdf";
                      sort_value := "size-asc" |}) files = files.
Proof.
  intro files.
  apply (initial_view_is_dataset codeOrder scenarioWorld
           {| FILES := files |}).
  - exact ascii_emptyStaysEmpty.
  - reflexivity.
Defined.

(** X13: [applyFilters] shows the message of the empty state exactly
    when no record of the data set passes the two filters; otherwise the
    grid holds one card per record shown, in the same order, each linking
    to the record's name. *)
Theorem applyFilters_grid {P : Platform} (localeCompare : string -> string -> Z)
  (humanSize : Z -> string) (fmtDate : Q -> string) (ui : Controls)
  (files : list FileRecord) :
  let view := applyFilters localeCompare humanSize fmtDate ui files in
  (empty_hidden view = false <->
   forall f, In f files -> passes ui f = false)
  /\ map btnView_href (grid view) = map name (visible localeCompare ui files)
  /\ List.length (grid view) = List.length (filter (passes ui) files).
Proof.
  cbv zeta. unfold applyFilters.
  assert (Hp : Permutation (visible localeCompare ui files)
                 (filter (passes ui) files))
    by (rewrite visible_passes; apply sort_perm).
  assert (Hempty : visible localeCompare ui files = []
                   <-> forall f, In f files -> passes ui f = false).
  { split.
    - intros E f Hin. destruct (passes ui f) eqn:Ef; [|reflexivity].
      rewrite E in Hp. apply Permutation_nil in Hp.
      assert (Hf : In f (filter (passes ui) files))
        by (apply filter_In; tauto).
      rewrite Hp in Hf. destruct Hf.
    - intro Hno. destruct (visible localeCompare ui files) as [|f l] eqn:E;
        [reflexivity|].
      assert (Hf : In f (filter (passes ui) files))
        by (eapply Permutation_in; [exact Hp | left; reflexivity]).
      apply filter_In in Hf. destruct Hf as [Hin Hpass].
      rewrite (Hno f Hin) in Hpass. discriminate. }
  rewrite <- (Permutation_length Hp).
  destruct (visible localeCompare ui files) as [|f l] eqn:E; simpl.
  - repeat split; tauto.
  - repeat split.
    + discriminate.
    + intro Hno. apply Hempty in Hno. discriminate.
    + f_equal. rewrite map_map. reflexivity.
    + rewrite length_map. reflexivity.
Qed.

(** ** What the generator leaves out and what it counts *)

(** X14: no record of a written page is named after a file of the
    deny-list, among them the output file [index.html] itself, and none
    has a name that starts with a dot. *)
Theorem page_excludes_ignored_names {P : Platform} (w : World) (page : Page)
  (f : FileRecord) :
  written (effects (run w)) = Some page ->
  In f (FILES page) ->
  ~ In (name f) IGNORE
  /\ name f <> "index.html"
  /\ Text.startsWith (name f) "." = false.
Proof.
  intros Hw Hin.
  destruct (run_written_inv w page Hw) as (entries & _ & Hr & _).
  destruct (page_record_origin w entries page f Hr Hw Hin)
    as (e & st & _ & Hel & _ & ->).
  apply eligible_iff in Hel. destruct Hel as (_ & Hign & Hdot).
  simpl. repeat split; try assumption.
  intro E. apply Hign. rewrite E. simpl. tauto.
Qed.

Lemma page_excludes_ignored_names_witness :
  ~ In "report.pdf" IGNORE
  /\ "report.pdf" <> "index.html"
  /\ Text.startsWith "report.pdf" "." = false.
Proof.
  apply (page_excludes_ignored_names scenarioWorld
           {| FILES :=
             [ {| name := "photo.PNG"; ext := "png"; size := 500000;
                  mtimeMs := 13600000040001 # 8; preview := JString "image" |};
               {| name := "report.pdf"; ext := "pdf"; size := 2048;
                  mtimeMs := inject_Z 1700000000000;
                  preview := JString "pdf" |} ] |}
           {| name := "report.pdf"; ext := "pdf"; size := 2048;
              mtimeMs := inject_Z 1700000000000; preview := JString "pdf" |}).
  - reflexivity.
  - right. left. reflexivity.
Defined.

(** X15: the number the success line reports, and the number of records
    of the page, is the number of entries of the listing that are regular
    files, not in the deny-list and not dot-prefixed. *)
Theorem reported_count_is_eligible_count {P : Platform} (w : World)
  (entries : list Dirent) (page : Page) :
  readdir w (cwd w) = Ok entries ->
  written (effects (run w)) = Some page ->
  List.length (FILES page) = List.length (filter eligible entries)
  /\ stdout (effects (run w))
     = [ successLine (List.length (filter eligible entries)) ]
  /\ (List.length (FILES page) <= List.length entries)%nat.
Proof.
  intros Hr Hw.
  pose proof (page_names w entries page Hr Hw) as Hp.
  apply Permutation_length in Hp. rewrite !length_map in Hp.
  destruct (run_written_inv w page Hw)
    as (entries' & files & _ & _ & _ & Hpage & Hrun).
  split; [exact Hp|]. split.
  - rewrite Hrun. simpl. rewrite <- Hp, Hpage. simpl.
    unfold JSON_stringify. rewrite length_map. reflexivity.
  - rewrite Hp. apply filter_length_le.
Qed.

Lemma reported_count_is_eligible_count_witness :
  List.length
    (FILES {| FILES :=
       [ {| name := "photo.PNG"; ext := "png"; size := 500000;
            mtimeMs := 13600000040001 # 8; preview := JString "image" |};
         {| name := "report.pdf"; ext := "pdf"; size := 2048;
            mtimeMs := inject_Z 1700000000000; preview := JString "pdf" |} ] |})
  = 2%nat
  /\ stdout (effects (run scenarioWorld)) = [ successLine 2 ].
Proof.
  destruct (reported_count_is_eligible_count scenarioWorld
              [ file "report.pdf"; file "photo.PNG"; file ".hidden";
                directory "docs"; file "index.html" ]
              {| FILES :=
                [ {| name := "photo.PNG"; ext := "png"; size := 500000;
                     mtimeMs := 13600000040001 # 8;
                     preview := JString "image" |};
                  {| name := "report.pdf"; ext := "pdf"; size := 2048;
                     mtimeMs := inject_Z 1700000000000;
                     preview := JString "pdf" |} ] |})
    as (H1 & H2 & _); [reflexivity | reflexivity|].
  split; [exact H1 | exact H2].
Defined.

(** ** Records with equal modification times *)

Section Stability.
Context {A : Type}.
Variable compare : A -> A -> Q.
Variable p : A -> bool.

(** Two elements of the class [p] never have to change places. *)
Hypothesis p_class :
  forall x y, p x = true -> p y = true -> (compare x y <= 0)%Q.

Lemma filter_insert (x : A) (l : list A) :
  filter p (JsArray.insert compare x l) = filter p (x :: l).
Proof.
  induction l as [|y t IH]; [reflexivity|].
  cbn [JsArray.insert].
  destruct (JsArray.after compare x y) eqn:E; [|reflexivity].
  apply after_true in E.
  cbn [filter] in *. rewrite IH.
  destruct (p x) eqn:Ex, (p y) eqn:Ey; try reflexivity.
  pose proof (p_class x y Ex Ey). lra.
Qed.

(** Sorting does not reorder the elements of the class. *)
Lemma filter_sort (l : list A) :
  filter p (JsArray.sort compare l) = filter p l.
Proof.
  induction l as [|x t IH]; [reflexivity|].
  cbn [JsArray.sort]. rewrite filter_insert. cbn [filter]. rewrite IH.
  reflexivity.
Qed.
End Stability.

Lemma filter_split {A : Type} (p : A -> bool) (x : A) (l : list A) :
  forall u v, filter p l = u ++ x :: v ->
    exists l1 l2, l = l1 ++ x :: l2 /\ filter p l1 = u /\ filter p l2 = v.
Proof.
  induction l as [|y l IH]; intros u v H.
  - destruct u; discriminate.
  - simpl in H. destruct (p y) eqn:Ey.
    + destruct u as [|z u]; simpl in H; injection H as E H.
      * subst x. exists [], l. auto.
      * subst z. destruct (IH u v H) as (l1 & l2 & -> & <- & <-).
        exists (y :: l1), l2. simpl. rewrite Ey. auto.
    + destruct (IH u v H) as (l1 & l2 & -> & <- & <-).
      exists (y :: l1), l2. simpl. rewrite Ey. auto.
Qed.

Lemma modifiedAt_viaJSON (m : Q) (l : list FileRecord) :
  filter (modifiedAt m) (map viaJSON l)
  = map viaJSON (filter (modifiedAt m) l).
Proof.
  induction l as [|f l IH]; [reflexivity|].
  cbn [map filter].
  change (modifiedAt m (viaJSON f)) with (modifiedAt m f).
  destruct (modifiedAt m f); cbn [map]; rewrite IH; reflexivity.
Qed.

(** In a written page, the records with one modification time are the
    records built for the eligible entries with that time, in the order
    of the listing. *)
Lemma page_same_time {P : Platform}
  (w : World) (entries : list Dirent) (page : Page)
  (m : Q) :
  readdir w (cwd w) = Ok entries ->
  written (effects (run w)) = Some page ->
  exists recs,
    Forall2 (builtFrom w) (filter eligible entries) recs
    /\ filter (modifiedAt m) (FILES page)
       = map viaJSON (filter (modifiedAt m) recs).
Proof.
  intros Hr Hw. apply run_written_inv in Hw.
  destruct Hw as (entries' & files & Hr' & Hs & _ & -> & _).
  assert (entries' = entries) as -> by congruence.
  apply scanLoop_spec in Hs. destruct Hs as (recs & -> & Hrecs).
  exists recs. split; [exact Hrecs|].
  simpl. unfold JSON_stringify. rewrite modifiedAt_viaJSON. f_equal.
  apply filter_sort. unfold modifiedAt, byMtimeDesc.
  intros x y Hx Hy. apply Qeq_bool_iff in Hx, Hy. lra.
Qed.

(** X16: two eligible entries with the same modification time keep the
    order of the listing: the record of the one listed first stands
    before the record of the other in the page. *)
Theorem equal_mtime_keeps_listing_order {P : Platform} (w : World)
  (l1 l2 l3 : list Dirent) (e1 e2 : Dirent) (s1 s2 : Stats) (page : Page) :
  readdir w (cwd w) = Ok (l1 ++ e1 :: l2 ++ e2 :: l3) ->
  written (effects (run w)) = Some page ->
  eligible e1 = true -> eligible e2 = true ->
  stat w (path_join (cwd w) (d_name e1)) = Ok s1 ->
  stat w (path_join (cwd w) (d_name e2)) = Ok s2 ->
  (st_mtimeMs s1 == st_mtimeMs s2)%Q ->
  exists p1 p2 p3,
    map name (FILES page) = p1 ++ d_name e1 :: p2 ++ d_name e2 :: p3.
Proof.
  intros Hr Hw He1 He2 Hs1 Hs2 Heq.
  destruct (page_same_time w _ page (st_mtimeMs s1) Hr Hw)
    as (recs & Hrecs & Hf).
  rewrite filter_app in Hrecs. simpl in Hrecs. rewrite He1 in Hrecs.
  rewrite filter_app in Hrecs. simpl in Hrecs. rewrite He2 in Hrecs.
  apply Forall2_app_inv_l in Hrecs.
  destruct Hrecs as (r1 & rest & _ & Hrest & ->).
  inversion Hrest as [|? f1 ? rest' (t1 & Ht1 & ->) Hrest' ]; subst.
  apply Forall2_app_inv_l in Hrest'.
  destruct Hrest' as (r2 & rest2 & _ & Hrest2 & ->).
  inversion Hrest2 as [|? f2 ? r3 (t2 & Ht2 & ->) _ ]; subst.
  assert (t1 = s1) as -> by congruence.
  assert (t2 = s2) as -> by congruence.
  rewrite filter_app in Hf. cbn [filter] in Hf.
  assert (M1 : modifiedAt (st_mtimeMs s1) (mkRecord e1 s1) = true)
    by (apply Qeq_bool_iff; reflexivity).
  assert (M2 : modifiedAt (st_mtimeMs s1) (mkRecord e2 s2) = true)
    by (apply Qeq_bool_iff; simpl; symmetry; exact Heq).
  rewrite M1 in Hf. rewrite filter_app in Hf. cbn [filter] in Hf.
  rewrite M2 in Hf.
  rewrite map_app in Hf. cbn [map] in Hf.
  rewrite map_app in Hf. cbn [map] in Hf.
  apply filter_split in Hf. destruct Hf as (a & b & Ha & _ & Hb).
  apply filter_split in Hb. destruct Hb as (b1 & b2 & -> & _ & _).
  exists (map name a), (map name b1), (map name b2).
  rewrite Ha, map_app. cbn [map]. rewrite map_app. reflexivity.
Qed.

Lemma equal_mtime_keeps_listing_order_witness :
  exists p1 p2 p3,
    [ "z.md"; "b.txt"; "a.txt" ] = p1 ++ "b.txt" :: p2 ++ "a.txt" :: p3.
Proof.
  apply (equal_mtime_keeps_listing_order tiedWorld
           [] [file "z.md"] [] (file "b.txt") (file "a.txt")
           {| st_size := 3; st_mtimeMs := inject_Z 1700000000000 |}
           {| st_size := 5; st_mtimeMs := inject_Z 1700000000000 |}
           {| FILES :=
             [ {| name := "z.md"; ext := "md"; size := 4;
                  mtimeMs := inject_Z 1700000009000;
                  preview := JString "text" |};
               {| name := "b.txt"; ext := "txt"; size := 3;
                  mtimeMs := inject_Z 1700000000000;
                  preview := JString "text" |};
               {| name := "a.txt"; ext := "txt"; size := 5;
                  mtimeMs := inject_Z 1700000000000;
                  preview := JString "text" |} ] |});
    reflexivity.
Defined.

(** ** Preview kinds of the records of a page *)

Lemma PREVIEW_viewer_kinds (key kind : string) :
  assoc key PREVIEW = Some kind -> In kind viewerKinds.
Proof.
  unfold PREVIEW. simpl.
  repeat (destruct (String.eqb key _);
          [intro H; injection H as <-; simpl; tauto|]).
  discriminate.
Qed.

Lemma Object_prototype_values (key : string) (v : jsval) :
  assoc key Object_prototype = Some v ->
  (exists n, v = JFunction n) \/ v = JObject "Object.prototype".
Proof.
  unfold Object_prototype. simpl.
  repeat (destruct (String.eqb key _);
          [intro H; injection H as <-; eauto|]).
  discriminate.
Qed.

(** The preview a record carries once it is in the page. *)
Lemma page_preview_shape (x : string) :
  let v := match extensionToPreviewKind x with
           | JFunction _ => JUndefined
           | v => v
           end in
  (exists kind, assoc x PREVIEW = Some kind /\ In kind viewerKinds
                /\ v = JString kind)
  \/ (assoc x PREVIEW = None
      /\ (v = JString "link" \/ v = JUndefined
          \/ v = JObject "Object.prototype")).
Proof.
  unfold extensionToPreviewKind, getProperty, js_or.
  destruct (assoc x PREVIEW) as [kind|] eqn:E.
  - left. exists kind. pose proof (PREVIEW_viewer_kinds x kind E) as Hk.
    split; [reflexivity|]. split; [exact Hk|].
    simpl in Hk.
    destruct Hk as [<-|[<-|[<-|[<-|[<-|[<-|[]]]]]]]; reflexivity.
  - right. split; [reflexivity|].
    destruct (assoc x Object_prototype) as [v|] eqn:E'.
    + destruct (Object_prototype_values x v E') as [[n ->]| ->]; simpl; auto.
    + simpl. auto.
Qed.

Lemma page_record_preview {P : Platform}
  (w : World) (page : Page) (f : FileRecord) :
  written (effects (run w)) = Some page ->
  In f (FILES page) ->
  (exists kind, assoc (ext f) PREVIEW = Some kind /\ In kind viewerKinds
                /\ preview f = JString kind)
  \/ (assoc (ext f) PREVIEW = None
      /\ (preview f = JString "link" \/ preview f = JUndefined
          \/ preview f = JObject "Object.prototype")).
Proof.
  intros Hw Hin.
  destruct (run_written_inv w page Hw) as (entries & _ & Hr & _).
  destruct (page_record_origin w entries page f Hr Hw Hin)
    as (e & st & _ & _ & _ & ->).
  apply page_preview_shape.
Qed.

(** X17: the heading of the card of every record of a written page is
    one of the seven icons of the table or the box, a space and the name
    of the file. *)
Theorem page_card_heading {P : Platform}
  (humanSize : Z -> string) (fmtDate : Q -> string)
  (w : World) (page : Page) (f : FileRecord) :
  written (effects (run w)) = Some page ->
  In f (FILES page) ->
  exists icon,
    In icon [ "📄"; "🖼️"; "🎞️"; "🎧"; "🕸️"; "📝"; "🔗"; "📦" ]
    /\ h3_textContent (card humanSize fmtDate f)
       = (icon ++ " " ++ name f)%string.
Proof.
  intros Hw Hin. unfold card. cbn [h3_textContent].
  destruct (page_record_preview w page f Hw Hin)
    as [(kind & _ & Hk & ->)|(_ & [->|[->| ->]])].
  - simpl in Hk.
    destruct Hk as [<-|[<-|[<-|[<-|[<-|[<-|[]]]]]]];
      eexists; (split; [|reflexivity]); simpl; tauto.
  - eexists; (split; [|reflexivity]); simpl; tauto.
  - exists "📦". split; [simpl; tauto|]. destruct (ext f); reflexivity.
  - exists "📦". split; [simpl; tauto|]. destruct (ext f); reflexivity.
Qed.

Lemma page_card_heading_witness :
  exists icon,
    In icon [ "📄"; "🖼️"; "🎞️"; "🎧"; "🕸️"; "📝"; "🔗"; "📦" ]
    /\ h3_textContent
         (card (fun _ => "1 B") (fun _ => "hoje")
            {| name := "notes.constructor"; ext := "constructor"; size := 1;
               mtimeMs := inject_Z 1700000000000; preview := JUndefined |})
       = (icon ++ " " ++ "notes.constructor")%string.
Proof.
  apply (page_card_heading (fun _ => "1 B") (fun _ => "hoje")
           constructorWorld
           {| FILES :=
             [ {| name := "notes.constructor"; ext := "constructor";
                  size := 1; mtimeMs := inject_Z 1700000000000;
                  preview := JUndefined |} ] |}).
  - reflexivity.
  - left. reflexivity.
Defined.

(** X18: the preview pane for a record of a written page.  When the
    extension is not a key of [PREVIEW], the pane gets the "not
    supported" markup with the name in it, at once.  When the table maps
    the extension to the kind [text], the pane is emptied and the file is
    requested: the text received is shown in a [pre] element as text, and
    when the request fails the pane gets the fixed "could not preview"
    markup, which holds no part of the record.  For the other kinds of
    the table an element that loads the name is appended ([#toolbar=1]
    after it for a PDF), and no markup is assigned. *)
Theorem page_viewer_fallback {P : Platform} (w : World) (page : Page)
  (f : FileRecord) :
  written (effects (run w)) = Some page ->
  In f (FILES page) ->
  (assoc (ext f) PREVIEW = None ->
   showInViewer f = InnerHTML (fallbackMarkup f))
  /\ (assoc (ext f) PREVIEW = Some "text" ->
      showInViewer f = FetchText (name f) Pre (InnerHTML failureMarkup)
      /\ (forall txt, settled (showInViewer f) (Body txt) = Pre txt)
      /\ settled (showInViewer f) Failure = InnerHTML failureMarkup)
  /\ (forall kind, assoc (ext f) PREVIEW = Some kind ->
      kind <> "text" ->
      (forall r, settled (showInViewer f) r = showInViewer f)
      /\ isMarkup (showInViewer f) = false
      /\ srcOf (showInViewer f)
         = Some (if String.eqb kind "pdf" then (name f ++ "#toolbar=1")%string
                 else name f))
  /\ (forall r, isMarkup (settled (showInViewer f) r) = true <->
                assoc (ext f) PREVIEW = None
                \/ (assoc (ext f) PREVIEW = Some "text" /\ r = Failure)).
Proof.
  intros Hw Hin. unfold showInViewer.
  destruct (page_record_preview w page f Hw Hin)
    as [(kind & Hp & Hk & ->)|(Hp & [->|[->| ->]])]; rewrite Hp.
  - simpl in Hk.
    destruct Hk as [<-|[<-|[<-|[<-|[<-|[<-|[]]]]]]]; simpl;
      (split; [discriminate|]);
      (split; [first [ discriminate
                     | intros _; repeat split; intros; reflexivity ]|]);
      (split; [intros k Hk Hne; first
                 [ injection Hk as <-; repeat split; intros; reflexivity
                 | exfalso; apply Hne; congruence ]|]);
      intros r; destruct r; simpl;
      (split;
       [ intro H; first [discriminate H | right; split; reflexivity]
       | intros [H|[H1 H2]];
         first [ reflexivity | discriminate H | discriminate H1
               | discriminate H2 ] ]).
  - simpl.
    split; [reflexivity|]. split; [discriminate|]. split; [discriminate|].
    intro r. split; [left; reflexivity | reflexivity].
  - simpl.
    split; [reflexivity|]. split; [discriminate|]. split; [discriminate|].
    intro r. split; [left; reflexivity | reflexivity].
  - simpl.
    split; [reflexivity|]. split; [discriminate|]. split; [discriminate|].
    intro r. split; [left; reflexivity | reflexivity].
Qed.

Lemma page_viewer_fallback_witness :
  let f := {| name := "b.txt"; ext := "txt"; size := 3;
              mtimeMs := inject_Z 1700000000000; preview := JString "text" |} in
  let g := {| name := "report.pdf"; ext := "pdf"; size := 2048;
              mtimeMs := inject_Z 1700000000000; preview := JString "pdf" |} in
  (forall txt, settled (showInViewer f) (Body txt) = Pre txt)
  /\ settled (showInViewer f) Failure = InnerHTML failureMarkup
  /\ srcOf (showInViewer g) = Some "report.pdf#toolbar=1".
Proof.
  intros f g.
  destruct (page_viewer_fallback tiedWorld
              {| FILES :=
                [ {| name := "z.md"; ext := "md"; size := 4;
                     mtimeMs := inject_Z 1700000009000;
                     preview := JString "text" |};
                  f;
                  {| name := "a.txt"; ext := "txt"; size := 5;
                     mtimeMs := inject_Z 1700000000000;
                     preview := JString "text" |} ] |} f)
    as (_ & Htext & _);
    [reflexivity | right; left; reflexivity |].
  destruct (page_viewer_fallback scenarioWorld
              {| FILES :=
                [ {| name := "photo.PNG"; ext := "png"; size := 500000;
                     mtimeMs := 13600000040001 # 8;
                     preview := JString "image" |};
                  g ] |} g)
    as (_ & _ & Hkind & _);
    [reflexivity | right; left; reflexivity |].
  destruct (Htext eq_refl) as (_ & Hbody & Hfail).
  destruct (Hkind "pdf" eq_refl) as (_ & _ & Hsrc); [discriminate|].
  split; [exact Hbody|]. split; [exact Hfail|]. exact Hsrc.
Defined.

(** X19: for an extension that is no property name of
    [Object.prototype], the classification is the entry of the table, or
    [link] when the table has none; and it is [link] only then. *)
Theorem classification_follows_table (x : string) :
  assoc x Object_prototype = None ->
  extensionToPreviewKind x
  = JString (match assoc x PREVIEW with
             | Some kind => kind
             | None => "link"
             end)
  /\ (extensionToPreviewKind x = JString "link" <-> assoc x PREVIEW = None).
Proof.
  intro Hproto. unfold extensionToPreviewKind, getProperty, js_or.
  rewrite Hproto.
  destruct (assoc x PREVIEW) as [kind|] eqn:E.
  - pose proof (PREVIEW_viewer_kinds x kind E) as Hk. simpl in Hk.
    destruct Hk as [<-|[<-|[<-|[<-|[<-|[<-|[]]]]]]]; simpl;
      (split; [reflexivity | split; discriminate]).
  - simpl. tauto.
Qed.

Lemma classification_follows_table_witness :
  extensionToPreviewKind "jpeg" = JString "image"
  /\ (extensionToPreviewKind "jpeg" = JString "link" <->
      assoc "jpeg" PREVIEW = None).
Proof.
  apply (classification_follows_table "jpeg"). reflexivity.
Defined.

(** ** [humanSize] *)

Lemma Math_round_bounds (x : Q) :
  (inject_Z (Math_round x) - (1 # 2) <= x
   /\ x < inject_Z (Math_round x) + (1 # 2))%Q.
Proof.
  unfold Math_round.
  pose proof (Qfloor_le (x + (1 # 2))) as H1.
  pose proof (Qlt_floor (x + (1 # 2))) as H2.
  rewrite inject_Z_plus in H2. change (inject_Z 1) with 1%Q in H2.
  split; lra.
Qed.

Lemma Math_round_whole (z : Z) (x : Q) :
  (x == inject_Z z)%Q -> Math_round x = z.
Proof.
  intro E. unfold Math_round.
  pose proof (Qfloor_le (x + (1 # 2))) as H1.
  pose proof (Qlt_floor (x + (1 # 2))) as H2.
  set (r := Qfloor (x + (1 # 2))) in *.
  rewrite inject_Z_plus in H2. change (inject_Z 1) with 1%Q in H2.
  assert (Hlo : (inject_Z r < inject_Z (z + 1))%Q).
  { rewrite inject_Z_plus. change (inject_Z 1) with 1%Q. lra. }
  assert (Hhi : (inject_Z z < inject_Z (r + 1))%Q).
  { rewrite inject_Z_plus. change (inject_Z 1) with 1%Q. lra. }
  rewrite <- Zlt_Qlt in Hlo, Hhi. lia.
Qed.

Ltac q_consts :=
  unfold Qdiv in *;
  repeat match goal with
  | |- context [(/ ?c)%Q] =>
      let v := eval vm_compute in (/ c)%Q in change (/ c)%Q with v
  | H : context [(/ ?c)%Q] |- _ =>
      let v := eval vm_compute in (/ c)%Q in change (/ c)%Q with v in H
  end.

(** What the loop of [humanSize] ends with. *)
Lemma humanSizeLoop_spec (bytes : Z) :
  0 <= bytes ->
  exists i,
    (i <= 4)%nat
    /\ (fst (humanSizeLoop 4 (inject_Z bytes) 0)
        == inject_Z bytes / inject_Z (1024 ^ Z.of_nat i))%Q
    /\ snd (humanSizeLoop 4 (inject_Z bytes) 0) = i
    /\ ((0 < i)%nat -> 1024 ^ Z.of_nat i <= bytes)
    /\ ((i < 4)%nat -> bytes < 1024 ^ (Z.of_nat i + 1)).
Proof.
  intro H0. set (B := inject_Z bytes).
  assert (HB : forall c : Z, (inject_Z c <= B)%Q -> c <= bytes)
    by (intros c H; unfold B in H; rewrite <- Zle_Qle in H; exact H).
  assert (HB' : forall c : Z, ~ (inject_Z c <= B)%Q -> bytes < c).
  { intros c H. apply Z.lt_nge. intro Hle. apply H.
    unfold B. rewrite <- Zle_Qle. exact Hle. }
  assert (Hnot : forall q : Q, Qle_bool 1024 q = false -> ~ (1024 <= q)%Q).
  { intros q E H. apply Qle_bool_iff in H. congruence. }
  cbn [humanSizeLoop]. change (List.length units - 1)%nat with 4%nat.
  destruct (Qle_bool 1024 B) eqn:E1; cbn [andb Nat.ltb Nat.leb];
    [apply Qle_bool_iff in E1 | apply Hnot in E1].
  2:{ exists 0%nat. cbn [fst snd].
      split; [lia|]. split; [q_consts; lra|]. split; [reflexivity|].
      split; intros Hi; [lia|].
      apply (HB' 1024). exact E1. }
  destruct (Qle_bool 1024 (B / 1024)) eqn:E2; cbn [andb Nat.ltb Nat.leb];
    [apply Qle_bool_iff in E2 | apply Hnot in E2].
  2:{ exists 1%nat. cbn [fst snd].
      split; [lia|]. split; [q_consts; lra|]. split; [reflexivity|].
      split; intros Hi.
      - apply (HB 1024). exact E1.
      - apply (HB' 1048576). intro H. apply E2.
        change (inject_Z 1048576) with (1048576 # 1) in H. q_consts. lra. }
  destruct (Qle_bool 1024 (B / 1024 / 1024)) eqn:E3;
    cbn [andb Nat.ltb Nat.leb];
    [apply Qle_bool_iff in E3 | apply Hnot in E3].
  2:{ exists 2%nat. cbn [fst snd].
      split; [lia|]. split; [q_consts; lra|]. split; [reflexivity|].
      split; intros Hi.
      - apply (HB 1048576).
        change (inject_Z 1048576) with (1048576 # 1). q_consts. lra.
      - apply (HB' 1073741824). intro H. apply E3.
        change (inject_Z 1073741824) with (1073741824 # 1) in H.
        q_consts. lra. }
  destruct (Qle_bool 1024 (B / 1024 / 1024 / 1024)) eqn:E4;
    cbn [andb Nat.ltb Nat.leb];
    [apply Qle_bool_iff in E4 | apply Hnot in E4].
  2:{ exists 3%nat. cbn [fst snd].
      split; [lia|]. split; [q_consts; lra|]. split; [reflexivity|].
      split; intros Hi.
      - apply (HB 1073741824).
        change (inject_Z 1073741824) with (1073741824 # 1). q_consts. lra.
      - apply (HB' 1099511627776). intro H. apply E4.
        change (inject_Z 1099511627776) with (1099511627776 # 1) in H.
        q_consts. lra. }
  exists 4%nat. cbn [fst snd].
  split; [lia|]. split; [q_consts; lra|]. split; [reflexivity|].
  split; intros Hi; [|lia].
  apply (HB 1099511627776).
  change (inject_Z 1099511627776) with (1099511627776 # 1). q_consts. lra.
Qed.

(** X20: for a size that is not negative and whose tenfold is below
    2^53, [humanSize] prints a number of tenths and one of the five units; the unit is the largest whose
    value does not exceed the size (TB at the most, B below 1024), and
    the number printed is within a twentieth of the size divided by the
    value of the unit. *)
Theorem humanSize_unit_and_value (bytes : Z) :
  0 <= bytes -> 10 * bytes < 2 ^ 53 ->
  exists (i : nat) (r : Z),
    humanSize bytes
    = (tenthsText r ++ " " ++ nth i units "undefined")%string
    /\ (i <= 4)%nat
    /\ In (nth i units "undefined") units
    /\ ((0 < i)%nat -> 1024 ^ Z.of_nat i <= bytes)
    /\ ((i < 4)%nat -> bytes < 1024 ^ (Z.of_nat i + 1))
    /\ (inject_Z r - (1 # 2)
        <= 10 * (inject_Z bytes / inject_Z (1024 ^ Z.of_nat i)))%Q
    /\ (10 * (inject_Z bytes / inject_Z (1024 ^ Z.of_nat i))
        < inject_Z r + (1 # 2))%Q.
Proof.
  intros H0 _.
  destruct (humanSizeLoop_spec bytes H0) as (i & Hi & Hn & Hs & Hlo & Hhi).
  unfold humanSize. change (List.length units - 1)%nat with 4%nat.
  destruct (humanSizeLoop 4 (inject_Z bytes) 0) as [n i'].
  cbn [fst snd] in Hn, Hs. subst i'.
  exists i, (Math_round (n * 10)).
  split; [reflexivity|]. split; [exact Hi|]. split.
  { apply nth_In. simpl. lia. }
  split; [exact Hlo|]. split; [exact Hhi|].
  destruct (Math_round_bounds (n * 10)) as [B1 B2].
  set (X := (inject_Z bytes / inject_Z (1024 ^ Z.of_nat i))%Q) in *.
  set (R := inject_Z (Math_round (n * 10))) in *.
  split; lra.
Qed.

Lemma humanSize_unit_and_value_witness :
  exists (i : nat) (r : Z),
    humanSize 500000
    = (tenthsText r ++ " " ++ nth i units "undefined")%string
    /\ (i <= 4)%nat
    /\ In (nth i units "undefined") units
    /\ ((0 < i)%nat -> 1024 ^ Z.of_nat i <= 500000)
    /\ ((i < 4)%nat -> 500000 < 1024 ^ (Z.of_nat i + 1))
    /\ (inject_Z r - (1 # 2)
        <= 10 * (inject_Z 500000 / inject_Z (1024 ^ Z.of_nat i)))%Q
    /\ (10 * (inject_Z 500000 / inject_Z (1024 ^ Z.of_nat i))
        < inject_Z r + (1 # 2))%Q.
Proof. apply (humanSize_unit_and_value 500000); lia. Defined.

Example humanSize_samples :
  map humanSize [ 0; 1023; 1024; 1536; 500000; 1048575; 1099511627776 ]
  = [ "0 B"; "1023 B"; "1 KB"; "1.5 KB"; "488.3 KB"; "1024 KB"; "1 TB" ].
Proof. reflexivity. Qed.

(** X21: a size below 1024 is printed as it is, in bytes. *)
Theorem humanSize_below_1024 (bytes : Z) :
  0 <= bytes < 1024 ->
  humanSize bytes = (digits bytes ++ " B")%string.
Proof.
  intros [H0 H1]. unfold humanSize.
  change (List.length units - 1)%nat with 4%nat. cbn [humanSizeLoop].
  destruct (Qle_bool 1024 (inject_Z bytes)) eqn:E.
  - apply Qle_bool_iff in E. change 1024%Q with (inject_Z 1024) in E.
    rewrite <- Zle_Qle in E. lia.
  - cbn [andb nth units].
    rewrite (Math_round_whole (bytes * 10)).
    + unfold tenthsText. rewrite Z_mod_mult, Z_div_mult by lia. reflexivity.
    + rewrite inject_Z_mult. reflexivity.
Qed.

Lemma humanSize_below_1024_witness :
  humanSize 17 = (digits 17 ++ " B")%string.
Proof. apply (humanSize_below_1024 17). lia. Defined.

(** ** The outcomes of a run *)

Lemma scanLoop_app {P : Platform} (w : World) (l1 l2 : list Dirent) :
  forall acc,
    scanLoop w (l1 ++ l2) acc
    = (files <- scanLoop w l1 acc ;; scanLoop w l2 files).
Proof.
  induction l1 as [|e l1 IH]; intro acc; [reflexivity|].
  cbn [app]. destruct (eligible e) eqn:E.
  - rewrite !(scanLoop_take _ _ _ _ E).
    destruct (stat w (path_join (cwd w) (d_name e))); simpl;
      [apply IH | reflexivity].
  - rewrite !(scanLoop_skip _ _ _ _ E). apply IH.
Qed.

(** X23: the error a run prints is the one of the first call that fails:
    the error of the [stat] of the first eligible entry whose [stat]
    fails, and the error of the write when the listing and every [stat]
    succeed. *)
Theorem first_failure_is_reported {P : Platform}
  (w : World) (l1 l2 : list Dirent)
  (e : Dirent) (err : string) :
  (readdir w (cwd w) = Ok (l1 ++ e :: l2) ->
   (forall e', In e' l1 -> eligible e' = true ->
      exists st, stat w (path_join (cwd w) (d_name e')) = Ok st) ->
   eligible e = true ->
   stat w (path_join (cwd w) (d_name e)) = Rejected err ->
   run w = {| effects := [ConsoleError err]; exitCode := 1 |})
  /\ (readdir w (cwd w) = Ok l1 ->
      (forall e', In e' l1 -> eligible e' = true ->
         exists st, stat w (path_join (cwd w) (d_name e')) = Ok st) ->
      writeFile w (path_join (cwd w) "index.html") = Rejected err ->
      run w = {| effects := [ConsoleError err]; exitCode := 1 |}).
Proof.
  split.
  - intros Hr Hok He Hst.
    destruct (scanLoop_total w l1 Hok []) as [files Hs].
    unfold run, main. rewrite Hr. simpl.
    rewrite scanLoop_app, Hs. cbn [bind].
    rewrite (scanLoop_take _ _ _ _ He), Hst. reflexivity.
  - intros Hr Hok Hw.
    destruct (scanLoop_total w l1 Hok []) as [files Hs].
    unfold run, main. rewrite Hr. simpl. rewrite Hs. simpl. rewrite Hw.
    reflexivity.
Qed.

Lemma first_failure_is_reported_witness :
  run vanishedWorld
  = {| effects := [ConsoleError "ENOENT: no such file or directory, stat"];
       exitCode := 1 |}.
Proof.
  apply (proj1 (first_failure_is_reported vanishedWorld
                  [file "kept.txt"] [] (file "gone.txt")
                  "ENOENT: no such file or directory, stat")).
  - reflexivity.
  - intros e' [<-|[]] _. eexists. reflexivity.
  - reflexivity.
  - reflexivity.
Defined.
